(** * Augur metric catalog: a shallow embedding of [augur_db.py]

    The Python class [Augur] answers every metric with one or two SQL queries
    against a relational store and, for [top_committers] and
    [downloaded_repos], a little application code over the returned table.

    Tables are lists of records (bags: order and duplicates are kept), a
    query is the list comprehension its SQL text denotes, a Python exception
    is a value of [exn], and a function that can raise returns a [result]. *)

From Stdlib Require Import ZArith List String Ascii Bool Lia Floats Permutation Sorted.
Import ListNotations.

Local Open Scope Z_scope.

(* ================================================================== *)
(** * Part I: definitions                                              *)
(* ================================================================== *)

(** ** Python exceptions *)

Inductive exn : Type :=
| ValueError (msg : string)
| TypeError (msg : string)
| IndexError (msg : string)
| NameError (msg : string)
| OverflowError (msg : string)
| AttributeError (msg : string)
| StoreFailure (msg : string).

Inductive result (A : Type) : Type :=
| Ok (a : A)
| Raise (e : exn).

Arguments Ok {A} a.
Arguments Raise {A} e.

Definition bind {A B : Type} (c : result A) (k : A -> result B) : result B :=
  match c with
  | Ok a => k a
  | Raise e => Raise e
  end.

Notation "x <- c1 ;; c2" := (bind c1 (fun x => c2))
  (at level 61, c1 at next level, right associativity).

Fixpoint map_result {A B : Type} (f : A -> result B) (l : list A) : result (list B) :=
  match l with
  | [] => Ok []
  | x :: l' => y <- f x ;; ys <- map_result f l' ;; Ok (y :: ys)
  end.

(** Truth value of an optional integer argument: [None] and [0] are falsy. *)
Definition truthy (v : option Z) : bool :=
  match v with
  | None => false
  | Some z => negb (z =? 0)
  end.

(** The value bound to a query parameter such as [:repo_id]. *)
Definition param (v : option Z) : Z :=
  match v with
  | None => 0
  | Some z => z
  end.

(** ** Relational helpers *)

(** Keys of a [GROUP BY], each once, in order of first appearance. *)
Fixpoint distinct {K : Type} (eqb : K -> K -> bool) (l : list K) : list K :=
  match l with
  | [] => []
  | k :: l' => k :: filter (fun k' => negb (eqb k k')) (distinct eqb l')
  end.

(** [ORDER BY]: stable insertion sort for the order [leb]. *)
Fixpoint insert_by {A : Type} (leb : A -> A -> bool) (x : A) (l : list A) : list A :=
  match l with
  | [] => [x]
  | y :: l' => if leb x y then x :: l else y :: insert_by leb x l'
  end.

Definition order_by {A : Type} (leb : A -> A -> bool) (l : list A) : list A :=
  fold_right (insert_by leb) [] l.

(** The order of an [ORDER BY], as a relation. *)
Definition precedes {A : Type} (leb : A -> A -> bool) (a b : A) : Prop :=
  leb a b = true.

(** [SUM(col)]: NULL over no rows. *)
Definition sum_Z (l : list Z) : Z := fold_right Z.add 0 l.

Definition sql_sum (l : list Z) : option Z :=
  match l with
  | [] => None
  | _ => Some (sum_Z l)
  end.

(** The 32-bit range of an SQL [int]. *)
Definition int4 (z : Z) : Prop := - 2 ^ 31 <= z < 2 ^ 31.

(** [expr::int]: the store rejects a value outside the 32-bit range. *)
Definition cast_int4 (z : Z) : result Z :=
  if (- 2 ^ 31 <=? z) && (z <? 2 ^ 31)
  then Ok z
  else Raise (StoreFailure "integer out of range").

Definition sql_int4 (v : option Z) : result (option Z) :=
  match v with
  | None => Ok None
  | Some z => z' <- cast_int4 z ;; Ok (Some z')
  end.

(** ** The store *)

Record repo_groups_row := {
  rg_repo_group_id : Z;
  rg_name : string
}.

Record repo_row := {
  r_repo_id : Z;
  r_repo_group_id : Z;
  r_repo_name : string;
  r_description : string;
  r_repo_git : string;
  r_repo_status : string;
  r_repo_added_year : Z;
  r_repo_added_month : Z
}.

(** Per-contributor annual rollup of a repo group. *)
Record dm_repo_group_annual_row := {
  rga_repo_group_id : Z;
  rga_email : string;
  rga_year : Z;
  rga_patches : Z
}.

(** Per-contributor rollup of a repo, annual ([dm_repo_annual]) or monthly
    ([dm_repo_monthly]). *)
Record dm_repo_row := {
  dm_repo_id : Z;
  dm_email : string;
  dm_year : Z;
  dm_added : Z;
  dm_removed : Z;
  dm_whitespace : Z;
  dm_patches : Z
}.

(** A snapshot; timestamps are seconds since the epoch. *)
Record repo_info_row := {
  repo_info_id : Z;
  ri_repo_id : Z;
  data_collection_date : Z;
  ri_fork_count : Z;
  ri_stars_count : Z;
  ri_watchers_count : Z
}.

Record commits_row := {
  cmt_id : Z;
  cmt_repo_id : Z;
  cmt_commit_hash : option string;
  cmt_committer_date : Z
}.

Record issues_row := {
  issue_id : Z;
  issue_repo_id : Z
}.

Record store := {
  db_repo_groups : list repo_groups_row;
  db_repo : list repo_row;
  db_dm_repo_group_annual : list dm_repo_group_annual_row;
  db_dm_repo_annual : list dm_repo_row;
  db_dm_repo_monthly : list dm_repo_row;
  db_repo_info : list repo_info_row;
  db_commits : list commits_row;
  db_issues : list issues_row
}.

(** ** [top_committers] (lines 1988-2088) *)

(** One row of the committers table: the scope's id and name
    ([repo_group_id], [repo_group_name] or [repo_id], [repo_name]), the
    contributor and the commit count. *)
Record committer := {
  scope_id : Z;
  scope_name : string;
  email : string;
  commits : Z
}.

Definition sum_commits (rows : list committer) : Z :=
  sum_Z (map commits rows).

(** The key of the committers query's [GROUP BY]: scope id, scope name,
    email. *)
Definition committer_key : Type := Z * string * string.

Definition committer_key_eqb (k k' : committer_key) : bool :=
  let '(i, n, e) := k in
  let '(i', n', e') := k' in
  (i =? i') && String.eqb n n' && String.eqb e e'.

(** [SUM(a.patches)::int AS commits ... GROUP BY key ORDER BY commits DESC]
    over the joined rows. *)
Definition committers_of {A : Type} (key : A -> committer_key) (patches : A -> Z)
           (joined : list A) : result (list committer) :=
  rows <- map_result
            (fun k =>
               let '(i, n, e) := k in
               c <- cast_int4 (sum_Z (map patches
                       (filter (fun x => committer_key_eqb k (key x)) joined))) ;;
               Ok {| scope_id := i; scope_name := n; email := e; commits := c |})
            (distinct committer_key_eqb (map key joined)) ;;
  Ok (order_by (fun x y => commits y <=? commits x) rows).

(** Group scope: both queries read [dm_repo_group_annual]. *)
Definition group_rollup (db : store) (year repo_group_id : Z)
  : list dm_repo_group_annual_row :=
  order_by (fun x y => rga_patches y <=? rga_patches x)
    (filter (fun x => (rga_year x =? year) && (rga_repo_group_id x =? repo_group_id))
            (db_dm_repo_group_annual db)).

(** Single repo: both queries read [dm_repo_annual]. *)
Definition repo_rollup (db : store) (year repo_id : Z) : list dm_repo_row :=
  order_by (fun x y => dm_patches y <=? dm_patches x)
    (filter (fun x => (dm_year x =? year) && (dm_repo_id x =? repo_id))
            (db_dm_repo_annual db)).

(** [total_commits_SQL] (lines 2005-2028), the [SELECT SUM(patches)::int] of
    either scope: one row, one column. *)
Definition total_commits_SQL (db : store) (year repo_group_id : Z) (repo_id : option Z)
  : result (option Z) :=
  if negb (truthy repo_id)
  then sql_int4 (sql_sum (map rga_patches (group_rollup db year repo_group_id)))
  else sql_int4 (sql_sum (map dm_patches (repo_rollup db year (param repo_id)))).

(** [committers_SQL] of either scope (lines 2033-2070). *)
Definition committers_SQL (db : store) (year repo_group_id : Z) (repo_id : option Z)
  : result (list committer) :=
  if negb (truthy repo_id)
  then committers_of
         (fun '(a, rg) => (rga_repo_group_id a, rg_name rg, rga_email a))
         (fun '(a, _) => rga_patches a)
         (flat_map (fun a =>
                      map (fun rg => (a, rg))
                          (filter (fun rg => rga_repo_group_id a =? rg_repo_group_id rg)
                                  (db_repo_groups db)))
                   (group_rollup db year repo_group_id))
  else committers_of
         (fun '(a, r) => (dm_repo_id a, r_repo_name r, dm_email a))
         (fun '(a, _) => dm_patches a)
         (flat_map (fun a =>
                      map (fun r => (a, r))
                          (filter (fun r => dm_repo_id a =? r_repo_id r) (db_repo db)))
                   (repo_rollup db year (param repo_id))).

(** [threshold < 0 or threshold > 1] (line 1999) on binary64 values;
    [threshold] is the value of [float(threshold)]. *)
Definition out_of_range (threshold : float) : bool :=
  (threshold <? 0)%float || (1 <? threshold)%float.

Definition invalid_threshold : exn :=
  ValueError "threshold should be between 0 and 1".

Definition check_threshold (threshold : float) : result unit :=
  if out_of_range threshold then Raise invalid_threshold else Ok tt.

(** [int(results.iloc[0]['sum'])] (line 2030): the aggregate is NULL over no
    rows, which pandas hands over as [None]. *)
Definition int_of_sum (s : option Z) : result Z :=
  match s with
  | Some z => Ok z
  | None => Raise (TypeError "int() argument must be a number, not 'NoneType'")
  end.

(** The operand conversion of [threshold * total_commits]: the nearest
    binary64 value, ties to even. *)
Definition float_of_int (z : Z) : result float :=
  match binary_normalize prec emax z 0 false with
  | S754_infinity _ => Raise (OverflowError "int too large to convert to float")
  | sf => Ok (SF2Prim sf)
  end.

(** Nearest integer to [m * 2^e], ties to even. *)
Definition round_half_even (m : positive) (e : Z) : Z :=
  match e with
  | Z0 => Zpos m
  | Zpos _ => Zpos m * 2 ^ e
  | Zneg k =>
      let d := 2 ^ Zpos k in
      let q := Zpos m / d in
      let r := Zpos m mod d in
      match 2 * r ?= d with
      | Lt => q
      | Gt => q + 1
      | Eq => if Z.even q then q else q + 1
      end
  end.

(** [round(x)] of a float, with no [ndigits]: in Python 3 the nearest [int],
    ties to even. *)
Definition python_round (x : float) : result Z :=
  match Prim2SF x with
  | S754_nan => Raise (ValueError "cannot convert float NaN to integer")
  | S754_infinity _ => Raise (OverflowError "cannot convert float infinity to integer")
  | S754_zero _ => Ok 0
  | S754_finite s m e => Ok (if s then - round_half_even m e else round_half_even m e)
  end.

(** [round(threshold * total_commits)] (line 2031). *)
Definition threshold_commits_of (threshold : float) (total_commits : Z) : result Z :=
  f <- float_of_int total_commits ;;
  python_round (threshold * f)%float.

(** State of the scan when the [for] loop is left: the loop variable [i]
    (unbound when the body never ran), the running sum and [results]. *)
Record scan_state := {
  st_i : option nat;
  st_cumsum : Z;
  st_results : list committer
}.

(** The loop over [results.iterrows()] (lines 2072-2077); [rest] are the rows
    still to visit, [i] the index of the next one. *)
Fixpoint iterrows (threshold_commits : Z) (results rest : list committer)
         (i : nat) (last : option nat) (cumsum : Z) : scan_state :=
  match rest with
  | [] => {| st_i := last; st_cumsum := cumsum; st_results := results |}
  | row :: rest' =>
      let cumsum := cumsum + commits row in
      if threshold_commits <=? cumsum
      then {| st_i := Some i; st_cumsum := cumsum;
              st_results := firstn (i + 1) results |}
      else iterrows threshold_commits results rest' (S i) (Some i) cumsum
  end.

Definition scan (threshold_commits : Z) (results : list committer) : scan_state :=
  iterrows threshold_commits results results 0%nat None 0.

(** [results.loc[label] = row] on a frame whose labels are [0 .. len-1]:
    overwrite an existing label, append a new one. *)
Fixpoint set_nth {A : Type} (n : nat) (x : A) (l : list A) : list A :=
  match n, l with
  | _, [] => []
  | O, _ :: l' => x :: l'
  | S n', y :: l' => y :: set_nth n' x l'
  end.

Definition loc_set {A : Type} (l : list A) (label : nat) (x : A) : list A :=
  if (label <? List.length l)%nat then set_nth label x l else l ++ [x].

(** The id column of the synthetic row: the caller's [repo_group_id] or
    [repo_id]. *)
Definition scope_of (repo_group_id : Z) (repo_id : option Z) : Z :=
  if negb (truthy repo_id) then repo_group_id else param repo_id.

(** The synthetic trailing row. *)
Definition other_contributors (id : Z) (name : string) (n : Z) : committer :=
  {| scope_id := id; scope_name := name; email := "other_contributors"; commits := n |}.

(** The scan and the synthetic row (lines 2072-2088): what [top_committers]
    does with the committers table. *)
Definition scan_and_annotate (total_commits threshold_commits : Z)
           (results : list committer) (repo_group_id : Z) (repo_id : option Z)
  : result (list committer) :=
  let st := scan threshold_commits results in
  match nth_error (st_results st) 0 with
  | None => Raise (IndexError "single positional indexer is out-of-bounds")
  | Some first =>
      match st_i st with
      | None => Raise (NameError "name 'i' is not defined")
      | Some i =>
          Ok (loc_set (st_results st) (i + 1)
                (other_contributors
                   (scope_of repo_group_id repo_id)
                   (scope_name first)
                   (total_commits - st_cumsum st)))
      end
  end.

(** [year] defaults to [datetime.datetime.now().year]. *)
Definition year_of (current_year : Z) (year : option Z) : Z :=
  match year with
  | None => current_year
  | Some y => y
  end.

(** [top_committers(repo_group_id, repo_id=None, year=None, threshold=0.5)].
    The two [pd.read_sql] calls are separate reads of the store: [db] is the
    store when the total is read, [db'] the store when the committers are
    read. *)
Definition top_committers (db db' : store) (current_year : Z)
           (repo_group_id : Z) (repo_id : option Z) (year : option Z)
           (threshold : float) : result (list committer) :=
  _ <- check_threshold threshold ;;
  let year := year_of current_year year in
  sum <- total_commits_SQL db year repo_group_id repo_id ;;
  total_commits <- int_of_sum sum ;;
  threshold_commits <- threshold_commits_of threshold total_commits ;;
  results <- committers_SQL db' year repo_group_id repo_id ;;
  scan_and_annotate total_commits threshold_commits results repo_group_id repo_id.

(** [prefix] is the shortest prefix of [results], the empty one included,
    whose commit counts sum to at least [threshold_commits]. *)
Definition smallest_prefix_reaching (threshold_commits : Z)
           (results prefix : list committer) : Prop :=
  exists k : nat,
    (k <= List.length results)%nat /\
    prefix = firstn k results /\
    threshold_commits <= sum_commits prefix /\
    forall j : nat, (j < k)%nat -> sum_commits (firstn j results) < threshold_commits.

(** [prefix] is the shortest non-empty prefix of [results] whose commit
    counts sum to at least [threshold_commits], or all of [results] when no
    non-empty prefix does. *)
Definition smallest_nonempty_prefix_reaching (threshold_commits : Z)
           (results prefix : list committer) : Prop :=
  exists k : nat,
    (1 <= k <= List.length results)%nat /\
    prefix = firstn k results /\
    (forall j : nat, (1 <= j < k)%nat ->
                     sum_commits (firstn j results) < threshold_commits) /\
    (threshold_commits <= sum_commits prefix \/ k = List.length results).

(** [ORDER BY commits DESC]. *)
Fixpoint descending (rows : list committer) : bool :=
  match rows with
  | [] => true
  | x :: rows' =>
      match rows' with
      | [] => true
      | y :: _ => (commits y <=? commits x) && descending rows'
      end
  end.

(** [threshold] lies in the closed interval [0, 1]. *)
Definition in_unit_interval (threshold : float) : bool :=
  (0 <=? threshold)%float && (threshold <=? 1)%float.

(** The rollup the call reads has no row for the scope and year. *)
Definition rollup_empty (db : store) (year repo_group_id : Z) (repo_id : option Z) : Prop :=
  if negb (truthy repo_id)
  then group_rollup db year repo_group_id = []
  else repo_rollup db year (param repo_id) = [].

(** The loop variable after [k] visited rows. *)
Definition last_index (k : nat) : option nat :=
  match k with
  | O => None
  | S k' => Some k'
  end.

(** The binary64 image of a non-zero integer of at most 53 bits. *)
Definition sf_of_pos (s : bool) (p : positive) : spec_float :=
  match 53 - Zpos (digits2_pos p) with
  | Zpos k => S754_finite s (Pos.iter xO p k) (- Zpos k)
  | _ => S754_finite s p 0
  end.

Definition sf_is_finite (x : spec_float) : bool :=
  match x with
  | S754_zero _ | S754_finite _ _ _ => true
  | _ => false
  end.

(** ** Result tables *)

(** A cell of a result table. *)
Inductive cell : Type :=
| Null
| Int (z : Z)
| Str (s : string).

Definition cell_eqb (c c' : cell) : bool :=
  match c, c' with
  | Null, Null => true
  | Int z, Int z' => z =? z'
  | Str s, Str s' => String.eqb s s'
  | _, _ => false
  end.

(** A [DataFrame]: column names and rows. *)
Record frame := {
  columns : list string;
  rows : list (list cell)
}.

(** Position of a column. *)
Fixpoint column_index (name : string) (cols : list string) : option nat :=
  match cols with
  | [] => None
  | c :: cols' =>
      if String.eqb name c then Some O
      else option_map S (column_index name cols')
  end.

Definition cell_at (cols : list string) (name : string) (row : list cell) : cell :=
  match column_index name cols with
  | Some i => nth i row Null
  | None => Null
  end.

(** The rows whose column [name] holds [v]. *)
Definition restrict_to (name : string) (v : cell) (f : frame) : frame :=
  {| columns := columns f;
     rows := filter (fun row => cell_eqb (cell_at (columns f) name row) v) (rows f) |}.

(** The columns [names] of a table, in that order. *)
Definition project (names : list string) (f : frame) : frame :=
  {| columns := names;
     rows := map (fun row => map (fun name => cell_at (columns f) name row) names)
                 (rows f) |}.

(** The single-project table [single] holds, row for row and in the same
    order, the rows of the group-scoped table [group] whose [repo_id] is
    [p], read in the columns of [single]: the columns that [single] drops
    are ignored. *)
Definition rows_of_project (p : Z) (single group : frame) : Prop :=
  rows single = rows (project (columns single) (restrict_to "repo_id" (Int p) group)).

(** ** Snapshot metrics: [fork_count] (lines 1287-1320), [stars_count]
    (lines 1494-1527), [watchers_count] (lines 1569-1602)

    The three functions differ in the count column only. *)

Inductive snapshot_metric : Type := Forks | Stars | Watchers.

Definition count_of (m : snapshot_metric) (i : repo_info_row) : Z :=
  match m with
  | Forks => ri_fork_count i
  | Stars => ri_stars_count i
  | Watchers => ri_watchers_count i
  end.

Definition count_name (m : snapshot_metric) : string :=
  match m with
  | Forks => "forks"
  | Stars => "stars"
  | Watchers => "watchers"
  end.

(** [id IN (SELECT repo_id FROM repo WHERE repo_group_id = :repo_group_id)]. *)
Definition in_repo_group (db : store) (repo_group_id id : Z) : bool :=
  existsb (fun r => (r_repo_id r =? id) && (r_repo_group_id r =? repo_group_id))
          (db_repo db).

(** The join condition of [repo_info a LEFT JOIN repo_info b]. *)
Definition newer_snapshot (a b : repo_info_row) : bool :=
  (ri_repo_id a =? ri_repo_id b) && (repo_info_id a <? repo_info_id b).

(** Group scope: the rows [a] that join no [b] ([b.repo_info_id IS NULL]),
    each with its repo. *)
Definition latest_count_group (m : snapshot_metric) (db : store) (repo_group_id : Z)
  : list (Z * string * Z) :=
  flat_map
    (fun a =>
       map (fun r => (ri_repo_id a, r_repo_name r, count_of m a))
           (filter (fun r => (ri_repo_id a =? r_repo_id r)
                             && in_repo_group db repo_group_id (ri_repo_id a))
                   (db_repo db)))
    (filter (fun a => negb (existsb (newer_snapshot a) (db_repo_info db)))
            (db_repo_info db)).

(** Single repo: [ORDER BY repo_info.data_collection_date DESC LIMIT 1]. *)
Definition latest_count_single (m : snapshot_metric) (db : store) (repo_id : Z)
  : list (string * Z) :=
  map (fun '(i, r) => (r_repo_name r, count_of m i))
      (firstn 1
         (order_by (fun x y => data_collection_date (fst y) <=? data_collection_date (fst x))
            (filter (fun '(i, _) => ri_repo_id i =? repo_id)
               (flat_map (fun i =>
                            map (fun r => (i, r))
                                (filter (fun r => ri_repo_id i =? r_repo_id r) (db_repo db)))
                         (db_repo_info db))))).

Definition latest_count (m : snapshot_metric) (db : store)
           (repo_group_id : Z) (repo_id : option Z) : frame :=
  if negb (truthy repo_id)
  then {| columns := ["repo_id"; "repo_name"; count_name m]%string;
          rows := map (fun '(i, n, c) => [Int i; Str n; Int c])
                      (latest_count_group m db repo_group_id) |}
  else {| columns := ["repo_name"; count_name m]%string;
          rows := map (fun '(n, c) => [Str n; Int c])
                      (latest_count_single m db (param repo_id)) |}.

Definition fork_count : store -> Z -> option Z -> frame := latest_count Forks.
Definition stars_count : store -> Z -> option Z -> frame := latest_count Stars.
Definition watchers_count : store -> Z -> option Z -> frame := latest_count Watchers.

(** The three "current count" metrics. *)
Definition current_count (m : snapshot_metric) : store -> Z -> option Z -> frame :=
  match m with
  | Forks => fork_count
  | Stars => stars_count
  | Watchers => watchers_count
  end.

(** The store with the rows of [repo_info] replaced. *)
Definition with_repo_info (db : store) (info : list repo_info_row) : store :=
  {| db_repo_groups := db_repo_groups db;
     db_repo := db_repo db;
     db_dm_repo_group_annual := db_dm_repo_group_annual db;
     db_dm_repo_annual := db_dm_repo_annual db;
     db_dm_repo_monthly := db_dm_repo_monthly db;
     db_repo_info := info;
     db_commits := db_commits db;
     db_issues := db_issues db |}.

(** The snapshots of one repo. *)
Definition snapshots_of (db : store) (repo_id : Z) : list repo_info_row :=
  filter (fun i => ri_repo_id i =? repo_id) (db_repo_info db).

(** Snapshot ids grow with the collection date, repo by repo. *)
Definition ids_follow_dates (db : store) (repo_id : Z) : Prop :=
  forall a b,
    In a (snapshots_of db repo_id) -> In b (snapshots_of db repo_id) ->
    repo_info_id a < repo_info_id b ->
    data_collection_date a < data_collection_date b.

(** ** [code_changes] (lines 43-95) *)

Definition between (lo hi x : Z) : bool := (lo <=? x) && (x <=? hi).

Definition is_some {A : Type} (o : option A) : bool :=
  match o with
  | Some _ => true
  | None => false
  end.

(** [COUNT(col)]: the rows where [col] is not NULL. *)
Definition sql_count {A B : Type} (col : A -> option B) (l : list A) : Z :=
  Z.of_nat (List.length (filter (fun x => is_some (col x)) l)).

(** [begin_date] and [end_date] default to the epoch and to now. *)
Definition begin_of (begin_date : option Z) : Z :=
  match begin_date with
  | None => 0
  | Some b => b
  end.

Definition end_of (now : Z) (end_date : option Z) : Z :=
  match end_date with
  | None => now
  | Some e => e
  end.

(** [FROM commits JOIN repo ON repo.repo_id = commits.repo_id]. *)
Definition commits_join_repo (db : store) : list (commits_row * repo_row) :=
  flat_map (fun c =>
              map (fun r => (c, r))
                  (filter (fun r => r_repo_id r =? cmt_repo_id c) (db_repo db)))
           (db_commits db).

Section CodeChanges.

(** The store's [date_trunc(:period, ts::DATE)]. *)
Variable date_trunc : string -> Z -> Z.

Variable db : store.
Variable period : string.
Variables begin_date end_date : Z.

(** Group scope: [GROUP BY commits.repo_id, date, repo_name
    ORDER BY commits.repo_id, date]. *)
Definition code_changes_group_rows (repo_group_id : Z)
  : list (commits_row * repo_row) :=
  filter (fun '(c, _) => in_repo_group db repo_group_id (cmt_repo_id c)
                         && between begin_date end_date (cmt_committer_date c))
         (commits_join_repo db).

Definition code_changes_group_key (x : commits_row * repo_row) : Z * Z * string :=
  (cmt_repo_id (fst x), date_trunc period (cmt_committer_date (fst x)),
   r_repo_name (snd x)).

Definition group_key_eqb (k k' : Z * Z * string) : bool :=
  let '(i, d, n) := k in
  let '(i', d', n') := k' in
  (i =? i') && (d =? d') && String.eqb n n'.

(** Rows are (repo_id, repo_name, date, commit_count). *)
Definition group_row_leb (x y : Z * string * Z * Z) : bool :=
  let '(i, _, d, _) := x in
  let '(i', _, d', _) := y in
  (i <? i') || ((i =? i') && (d <=? d')).

Definition code_changes_group (repo_group_id : Z) : list (Z * string * Z * Z) :=
  let rows := code_changes_group_rows repo_group_id in
  order_by group_row_leb
    (map (fun k =>
            let '(i, d, n) := k in
            (i, n, d,
             sql_count (fun x => cmt_commit_hash (fst x))
                       (filter (fun x => group_key_eqb k (code_changes_group_key x)) rows)))
         (distinct group_key_eqb (map code_changes_group_key rows))).

(** Single repo: [GROUP BY date, repo_name ORDER BY date]. *)
Definition code_changes_single_rows (repo_id : Z) : list (commits_row * repo_row) :=
  filter (fun '(c, _) => (cmt_repo_id c =? repo_id)
                         && between begin_date end_date (cmt_committer_date c))
         (commits_join_repo db).

Definition code_changes_single_key (x : commits_row * repo_row) : Z * string :=
  (date_trunc period (cmt_committer_date (fst x)), r_repo_name (snd x)).

Definition single_key_eqb (k k' : Z * string) : bool :=
  let '(d, n) := k in
  let '(d', n') := k' in
  (d =? d') && String.eqb n n'.

(** Rows are (repo_name, date, commit_count). *)
Definition single_row_leb (x y : string * Z * Z) : bool :=
  let '(_, d, _) := x in
  let '(_, d', _) := y in
  d <=? d'.

Definition code_changes_single (repo_id : Z) : list (string * Z * Z) :=
  let rows := code_changes_single_rows repo_id in
  order_by single_row_leb
    (map (fun k =>
            let '(d, n) := k in
            (n, d,
             sql_count (fun x => cmt_commit_hash (fst x))
                       (filter (fun x => single_key_eqb k (code_changes_single_key x)) rows)))
         (distinct single_key_eqb (map code_changes_single_key rows))).

End CodeChanges.

(** The joined row is a commit of repo [p]. *)
Definition of_repo (p : Z) (x : commits_row * repo_row) : bool :=
  cmt_repo_id (fst x) =? p.

(** A single-project key, and a single-project row, as the group-scoped
    ones of repo [p]. *)
Definition group_key_of (p : Z) (k : Z * string) : Z * Z * string :=
  (p, fst k, snd k).

Definition group_row_of (p : Z) (x : string * Z * Z) : Z * string * Z * Z :=
  let '(n, d, c) := x in (p, n, d, c).

(** [code_changes(repo_group_id, repo_id=None, period='day', begin_date=None,
    end_date=None)]; [now] is [datetime.datetime.now()]. *)
Definition code_changes (date_trunc : string -> Z -> Z) (db : store) (now : Z)
           (repo_group_id : Z) (repo_id : option Z) (period : string)
           (begin_date end_date : option Z) : frame :=
  let b := begin_of begin_date in
  let e := end_of now end_date in
  if negb (truthy repo_id)
  then {| columns := ["repo_id"; "repo_name"; "date"; "commit_count"]%string;
          rows := map (fun '(i, n, d, c) => [Int i; Str n; Int d; Int c])
                      (code_changes_group date_trunc db period b e repo_group_id) |}
  else {| columns := ["repo_name"; "date"; "commit_count"]%string;
          rows := map (fun '(n, d, c) => [Str n; Int d; Int c])
                      (code_changes_single date_trunc db period b e (param repo_id)) |}.

(** ** Time series of the snapshots: [forks] (lines 1247-1285), [stars]
    (lines 1454-1492), [watchers] (lines 1529-1567)

    The three functions differ in the count column only. *)

(** [FROM repo_info JOIN repo ON repo_info.repo_id = repo.repo_id]. *)
Definition repo_info_join_repo (db : store) : list (repo_info_row * repo_row) :=
  flat_map (fun i =>
              map (fun r => (i, r))
                  (filter (fun r => ri_repo_id i =? r_repo_id r) (db_repo db)))
           (db_repo_info db).

(** Group scope: rows are (repo_id, repo_name, date, count),
    [ORDER BY repo_info.repo_id, date]. *)
Definition series_group (m : snapshot_metric) (db : store) (repo_group_id : Z)
  : list (Z * string * Z * Z) :=
  order_by group_row_leb
    (map (fun '(i, r) =>
            (ri_repo_id i, r_repo_name r, data_collection_date i, count_of m i))
         (filter (fun '(i, _) => in_repo_group db repo_group_id (ri_repo_id i))
                 (repo_info_join_repo db))).

(** Single repo: rows are (repo_name, date, count), [ORDER BY date]. *)
Definition series_single (m : snapshot_metric) (db : store) (repo_id : Z)
  : list (string * Z * Z) :=
  order_by single_row_leb
    (map (fun '(i, r) => (r_repo_name r, data_collection_date i, count_of m i))
         (filter (fun '(i, _) => ri_repo_id i =? repo_id) (repo_info_join_repo db))).

Definition series (m : snapshot_metric) (db : store)
           (repo_group_id : Z) (repo_id : option Z) : frame :=
  if negb (truthy repo_id)
  then {| columns := ["repo_id"; "repo_name"; "date"; count_name m]%string;
          rows := map (fun '(i, n, d, c) => [Int i; Str n; Int d; Int c])
                      (series_group m db repo_group_id) |}
  else {| columns := ["repo_name"; "date"; count_name m]%string;
          rows := map (fun '(n, d, c) => [Str n; Int d; Int c])
                      (series_single m db (param repo_id)) |}.

Definition forks : store -> Z -> option Z -> frame := series Forks.
Definition stars : store -> Z -> option Z -> frame := series Stars.
Definition watchers : store -> Z -> option Z -> frame := series Watchers.

(** The three time series. *)
Definition count_series (m : snapshot_metric) : store -> Z -> option Z -> frame :=
  match m with
  | Forks => forks
  | Stars => stars
  | Watchers => watchers
  end.

(** ** [annual_commit_count_ranked_by_repo_in_repo_group] (lines 1752-1846) *)

(** A scalar subquery: NULL over no rows, an error over more than one. *)
Definition scalar_subquery {A : Type} (l : list A) : result (option A) :=
  match l with
  | [] => Ok None
  | [x] => Ok (Some x)
  | _ => Raise (StoreFailure "more than one row returned by a subquery used as an expression")
  end.

(** [col = v] where [v] may be NULL. *)
Definition sql_eq (x : Z) (v : option Z) : bool :=
  match v with
  | None => false
  | Some y => x =? y
  end.

Definition ranked_key_eqb (k k' : Z * Z) : bool :=
  (fst k =? fst k') && (snd k =? snd k').

(** [SELECT repo.repo_id, repo_name as name,
            SUM(added - removed - whitespace) as net, patches
     FROM rollup, repo, repo_groups
     WHERE repo.repo_group_id = group
       AND repo.repo_group_id = repo_groups.repo_group_id
       AND rollup.repo_id = repo.repo_id AND added
     GROUP BY repo.repo_id, patches ORDER BY net DESC LIMIT 10]. *)
Definition ranked_commits_SQL (rollup : list dm_repo_row) (db : store)
           (group : option Z) (added : repo_row -> bool) : list (Z * string * Z * Z) :=
  let joined :=
    flat_map (fun a =>
      flat_map (fun r =>
        map (fun rg => (a, r, rg))
            (filter (fun rg => r_repo_group_id r =? rg_repo_group_id rg)
                    (db_repo_groups db)))
        (filter (fun r => sql_eq (r_repo_group_id r) group
                          && (dm_repo_id a =? r_repo_id r) && added r)
                (db_repo db)))
      rollup in
  let key := fun '(a, r, _) => (r_repo_id r, dm_patches a) in
  firstn 10
    (order_by (fun x y => let '(_, _, net, _) := x in
                          let '(_, _, net', _) := y in net' <=? net)
       (map (fun k =>
               let rows := filter (fun x => ranked_key_eqb k (key x)) joined in
               (fst k,
                match rows with
                | (_, r, _) :: _ => r_repo_name r
                | [] => EmptyString
                end,
                sum_Z (map (fun '(a, _, _) => dm_added a - dm_removed a - dm_whitespace a)
                           rows),
                snd k))
            (distinct ranked_key_eqb (map key joined)))).

Definition ranked_frame (l : list (Z * string * Z * Z)) : frame :=
  {| columns := ["repo_id"; "name"; "net"; "patches"]%string;
     rows := map (fun '(i, n, net, p) => [Int i; Str n; Int net; Int p]) l |}.

(** The single-project template: the repo's group comes from a scalar
    subquery on [repo]. *)
Definition ranked_single (rollup : list dm_repo_row) (db : store) (repo_id : Z)
           (added : repo_row -> bool) : result frame :=
  group <- scalar_subquery
             (map r_repo_group_id (filter (fun r => r_repo_id r =? repo_id) (db_repo db))) ;;
  Ok (ranked_frame (ranked_commits_SQL rollup db group added)).

(** The group-scoped template. *)
Definition ranked_group (rollup : list dm_repo_row) (db : store) (repo_group_id : Z)
           (added : repo_row -> bool) : result frame :=
  Ok (ranked_frame (ranked_commits_SQL rollup db (Some repo_group_id) added)).

(** [annual_commit_count_ranked_by_repo_in_repo_group(repo_group_id,
    repo_id=None, timeframe=None)]; [current_year] and [current_month] are
    the parts of the store's [CURRENT_DATE]. No template is chosen for a
    timeframe other than 'all', 'year' and 'month', and the read fails. *)
Definition annual_commit_count_ranked_by_repo_in_repo_group
           (db : store) (current_year current_month : Z)
           (repo_group_id : Z) (repo_id : option Z) (timeframe : option string)
  : result frame :=
  let timeframe := match timeframe with None => "all"%string | Some t => t end in
  let this_year := fun r => r_repo_added_year r =? current_year in
  let this_month := fun r => this_year r && (r_repo_added_month r =? current_month) in
  if truthy repo_id
  then
    if String.eqb timeframe "all"
    then ranked_single (db_dm_repo_annual db) db (param repo_id) (fun _ => true)
    else if String.eqb timeframe "year"
    then ranked_single (db_dm_repo_annual db) db (param repo_id) this_year
    else if String.eqb timeframe "month"
    then ranked_single (db_dm_repo_monthly db) db (param repo_id) this_month
    else Raise (StoreFailure "Not an executable object: None")
  else
    if String.eqb timeframe "all"
    then ranked_group (db_dm_repo_annual db) db repo_group_id (fun _ => true)
    else if String.eqb timeframe "year"
    then ranked_group (db_dm_repo_annual db) db repo_group_id this_year
    else if String.eqb timeframe "month"
    then ranked_group (db_dm_repo_annual db) db repo_group_id this_month
    else Raise (StoreFailure "Not an executable object: None").

(** ** [annual_lines_of_code_count_ranked_by_repo_in_repo_group]
    (lines 1892-1986)

    The six templates are, word for word, those of
    [annual_commit_count_ranked_by_repo_in_repo_group], selected the same
    way. *)
Definition annual_lines_of_code_count_ranked_by_repo_in_repo_group
           (db : store) (current_year current_month : Z)
           (repo_group_id : Z) (repo_id : option Z) (timeframe : option string)
  : result frame :=
  let timeframe := match timeframe with None => "all"%string | Some t => t end in
  let this_year := fun r => r_repo_added_year r =? current_year in
  let this_month := fun r => this_year r && (r_repo_added_month r =? current_month) in
  if truthy repo_id
  then
    if String.eqb timeframe "all"
    then ranked_single (db_dm_repo_annual db) db (param repo_id) (fun _ => true)
    else if String.eqb timeframe "year"
    then ranked_single (db_dm_repo_annual db) db (param repo_id) this_year
    else if String.eqb timeframe "month"
    then ranked_single (db_dm_repo_monthly db) db (param repo_id) this_month
    else Raise (StoreFailure "Not an executable object: None")
  else
    if String.eqb timeframe "all"
    then ranked_group (db_dm_repo_annual db) db repo_group_id (fun _ => true)
    else if String.eqb timeframe "year"
    then ranked_group (db_dm_repo_annual db) db repo_group_id this_year
    else if String.eqb timeframe "month"
    then ranked_group (db_dm_repo_annual db) db repo_group_id this_month
    else Raise (StoreFailure "Not an executable object: None").

(** ** [annual_commit_count_ranked_by_new_repo_in_repo_group]
    (lines 1708-1750) and
    [annual_lines_of_code_count_ranked_by_new_repo_in_repo_group]
    (lines 1848-1890) *)

(** [cast(added as INTEGER) - cast(removed as INTEGER)
     - cast(whitespace as INTEGER)]: the casts and the two subtractions are
    32-bit. *)
Definition net_int4 (a : dm_repo_row) : result Z :=
  x <- cast_int4 (dm_added a) ;;
  y <- cast_int4 (dm_removed a) ;;
  z <- cast_int4 (dm_whitespace a) ;;
  d <- cast_int4 (x - y) ;;
  cast_int4 (d - z).

Definition new_repo_key_eqb (k k' : Z * Z * string) : bool :=
  let '(i, p, n) := k in
  let '(i', p', n') := k' in
  (i =? i') && (p =? p') && String.eqb n n'.

(** [SELECT repo.repo_id, sum(net) as net, patches, repo_name
     FROM dm_repo_annual, repo, repo_groups
     WHERE repo.repo_group_id = group
       AND dm_repo_annual.repo_id = repo.repo_id
       AND date_part('year', repo.repo_added) = :calendar_year
       AND repo.repo_group_id = repo_groups.repo_group_id
     GROUP BY repo.repo_id, patches, rg_name ORDER BY net DESC LIMIT 10]. *)
Definition new_repo_ranked_SQL (db : store) (group : option Z) (calendar_year : Z)
  : result (list (Z * Z * Z * string)) :=
  let joined :=
    flat_map (fun a =>
      flat_map (fun r =>
        map (fun rg => (a, r, rg))
            (filter (fun rg => r_repo_group_id r =? rg_repo_group_id rg)
                    (db_repo_groups db)))
        (filter (fun r => sql_eq (r_repo_group_id r) group
                          && (dm_repo_id a =? r_repo_id r)
                          && (r_repo_added_year r =? calendar_year))
                (db_repo db)))
      (db_dm_repo_annual db) in
  let key := fun '(a, r, rg) => (r_repo_id r, dm_patches a, rg_name rg) in
  grouped <- map_result
               (fun k =>
                  let rows := filter (fun x => new_repo_key_eqb k (key x)) joined in
                  nets <- map_result (fun '(a, _, _) => net_int4 a) rows ;;
                  Ok (fst (fst k), sum_Z nets, snd (fst k),
                      match rows with
                      | (_, r, _) :: _ => r_repo_name r
                      | [] => EmptyString
                      end))
               (distinct new_repo_key_eqb (map key joined)) ;;
  Ok (firstn 10
        (order_by (fun x y => let '(_, net, _, _) := x in
                              let '(_, net', _, _) := y in net' <=? net)
                  grouped)).

Definition new_repo_frame (l : list (Z * Z * Z * string)) : frame :=
  {| columns := ["repo_id"; "net"; "patches"; "repo_name"]%string;
     rows := map (fun '(i, net, p, n) => [Int i; Int net; Int p; Str n]) l |}.

(** [calendar_year] defaults to 2019; the single-project template takes the
    repo's group from a scalar subquery on [repo]. *)
Definition annual_commit_count_ranked_by_new_repo_in_repo_group
           (db : store) (repo_group_id : Z) (repo_id : option Z)
           (calendar_year : option Z) : result frame :=
  let calendar_year := match calendar_year with None => 2019 | Some y => y end in
  if negb (truthy repo_id)
  then
    ranked <- new_repo_ranked_SQL db (Some repo_group_id) calendar_year ;;
    Ok (new_repo_frame ranked)
  else
    group <- scalar_subquery
               (map r_repo_group_id
                    (filter (fun r => r_repo_id r =? param repo_id) (db_repo db))) ;;
    ranked <- new_repo_ranked_SQL db group calendar_year ;;
    Ok (new_repo_frame ranked).

Definition annual_lines_of_code_count_ranked_by_new_repo_in_repo_group
           (db : store) (repo_group_id : Z) (repo_id : option Z)
           (calendar_year : option Z) : result frame :=
  let calendar_year := match calendar_year with None => 2019 | Some y => y end in
  if negb (truthy repo_id)
  then
    ranked <- new_repo_ranked_SQL db (Some repo_group_id) calendar_year ;;
    Ok (new_repo_frame ranked)
  else
    group <- scalar_subquery
               (map r_repo_group_id
                    (filter (fun r => r_repo_id r =? param repo_id) (db_repo db))) ;;
    ranked <- new_repo_ranked_SQL db group calendar_year ;;
    Ok (new_repo_frame ranked).

(** ** [downloaded_repos] (lines 2108-2147) *)

(** Python strings are modelled by their UTF-8 bytes, so [str.encode()] is
    the identity; '/' is a single byte that occurs in no multi-byte
    sequence, so splitting on '//' is the same on both. *)

Fixpoint string_drop (n : nat) (s : string) : string :=
  match n, s with
  | O, _ => s
  | S n', String _ s' => string_drop n' s'
  | S _, EmptyString => EmptyString
  end.

(** [s.partition(sep)]: the text before and after the first occurrence of
    [sep], if any. *)
Fixpoint partition (sep s : string) {struct s} : option (string * string) :=
  if prefix sep s then Some (EmptyString, string_drop (String.length sep) s)
  else match s with
       | EmptyString => None
       | String c s' =>
           match partition sep s' with
           | Some (before, after) => Some (String c before, after)
           | None => None
           end
       end.

Fixpoint split_fuel (fuel : nat) (sep s : string) : list string :=
  match fuel with
  | O => [s]
  | S fuel' =>
      match partition sep s with
      | None => [s]
      | Some (before, after) => before :: split_fuel fuel' sep after
      end
  end.

(** [s.split(sep)] for a non-empty [sep]: at most [len(s)] cuts. *)
Definition split (sep s : string) : list string :=
  split_fuel (String.length s) sep s.

(** [lambda datum: datum.split('//')[1]]. *)
Definition url_of (datum : string) : result string :=
  match nth_error (split "//" datum) 1 with
  | Some piece => Ok piece
  | None => Raise (IndexError "list index out of range")
  end.

(** *** Base64 (RFC 4648, with padding) *)

Definition b64_alphabet : string :=
  "ABCDEFGHIJKLMNOPQRSTUVWXYZabcdefghijklmnopqrstuvwxyz0123456789+/".

Definition b64_char (i : Z) : ascii :=
  match String.get (Z.to_nat i) b64_alphabet with
  | Some c => c
  | None => "="%char
  end.

Fixpoint index_of (c : ascii) (s : string) : option Z :=
  match s with
  | EmptyString => None
  | String c' s' =>
      if Ascii.eqb c c' then Some 0
      else option_map Z.succ (index_of c s')
  end.

Definition b64_value (c : ascii) : option Z := index_of c b64_alphabet.

Definition byte_val (c : ascii) : Z := Z.of_N (N_of_ascii c).

Definition byte_of (z : Z) : ascii := ascii_of_N (Z.to_N z).

(** The four characters of a 24-bit group. *)
Definition b64_group (n : Z) : ascii * ascii * ascii * ascii :=
  (b64_char (n / 262144), b64_char ((n / 4096) mod 64),
   b64_char ((n / 64) mod 64), b64_char (n mod 64)).

(** [base64.b64encode]. *)
Fixpoint b64encode (s : string) : string :=
  match s with
  | EmptyString => EmptyString
  | String a EmptyString =>
      let '(c1, c2, _, _) := b64_group (byte_val a * 65536) in
      String c1 (String c2 "==")
  | String a (String b EmptyString) =>
      let '(c1, c2, c3, _) := b64_group (byte_val a * 65536 + byte_val b * 256) in
      String c1 (String c2 (String c3 "="))
  | String a (String b (String c rest)) =>
      let '(c1, c2, c3, c4) :=
        b64_group (byte_val a * 65536 + byte_val b * 256 + byte_val c) in
      String c1 (String c2 (String c3 (String c4 (b64encode rest))))
  end.

(** [base64.b64decode] on padded input over the alphabet; [None] is
    [binascii.Error]. *)
Fixpoint b64decode (s : string) : option string :=
  match s with
  | EmptyString => Some EmptyString
  | String c1 (String c2 (String c3 (String c4 rest))) =>
      match b64_value c1, b64_value c2 with
      | Some v1, Some v2 =>
          if Ascii.eqb c4 "="
          then
            match rest with
            | EmptyString =>
                if Ascii.eqb c3 "="
                then Some (String (byte_of ((v1 * 64 + v2) / 16)) EmptyString)
                else
                  match b64_value c3 with
                  | Some v3 =>
                      let n := (v1 * 64 + v2) * 64 + v3 in
                      Some (String (byte_of (n / 1024))
                              (String (byte_of ((n / 4) mod 256)) EmptyString))
                  | None => None
                  end
            | _ => None
            end
          else
            match b64_value c3, b64_value c4, b64decode rest with
            | Some v3, Some v4, Some tail =>
                let n := ((v1 * 64 + v2) * 64 + v3) * 64 + v4 in
                Some (String (byte_of (n / 65536))
                        (String (byte_of ((n / 256) mod 256))
                           (String (byte_of (n mod 256)) tail)))
            | _, _, _ => None
            end
      | _, _ => None
      end
  | _ => None
  end.

(** *** The query and the two derived columns *)

Record downloaded_repo := {
  dr_repo_id : Z;
  dr_repo_name : string;
  dr_description : string;
  dr_url : string;
  dr_repo_status : string;
  dr_commits_all_time : option Z;
  dr_issues_all_time : option Z;
  dr_rg_name : string;
  dr_base64_url : string
}.

(** [select repo_id, COUNT(id) from t group by repo_id], looked up for one
    repo by a left outer join: NULL when the repo has no row. *)
Definition count_for {A : Type} (repo_of : A -> Z) (t : list A) (id : Z) : option Z :=
  match filter (fun x => repo_of x =? id) t with
  | [] => None
  | l => Some (Z.of_nat (List.length l))
  end.

(** [ORDER BY commits_all_time DESC], NULLs first. *)
Definition commits_desc (x y : option Z) : bool :=
  match x, y with
  | None, _ => true
  | Some _, None => false
  | Some a, Some b => b <=? a
  end.

(** The rows of [downloadedReposSQL]; [dr_url] still holds [repo_git]. *)
Definition downloadedReposSQL (db : store) : list downloaded_repo :=
  order_by (fun x y => commits_desc (dr_commits_all_time x) (dr_commits_all_time y))
    (flat_map
       (fun r =>
          map (fun rg =>
                 {| dr_repo_id := r_repo_id r;
                    dr_repo_name := r_repo_name r;
                    dr_description := r_description r;
                    dr_url := r_repo_git r;
                    dr_repo_status := r_repo_status r;
                    dr_commits_all_time := count_for cmt_repo_id (db_commits db) (r_repo_id r);
                    dr_issues_all_time := count_for issue_repo_id (db_issues db) (r_repo_id r);
                    dr_rg_name := rg_name rg;
                    dr_base64_url := EmptyString |})
              (filter (fun rg => rg_repo_group_id rg =? r_repo_group_id r)
                      (db_repo_groups db)))
       (db_repo db)).

Definition set_url (row : downloaded_repo) (url : string) : downloaded_repo :=
  {| dr_repo_id := dr_repo_id row;
     dr_repo_name := dr_repo_name row;
     dr_description := dr_description row;
     dr_url := url;
     dr_repo_status := dr_repo_status row;
     dr_commits_all_time := dr_commits_all_time row;
     dr_issues_all_time := dr_issues_all_time row;
     dr_rg_name := dr_rg_name row;
     dr_base64_url := dr_base64_url row |}.

Definition set_base64_url (row : downloaded_repo) (b64 : string) : downloaded_repo :=
  {| dr_repo_id := dr_repo_id row;
     dr_repo_name := dr_repo_name row;
     dr_description := dr_description row;
     dr_url := dr_url row;
     dr_repo_status := dr_repo_status row;
     dr_commits_all_time := dr_commits_all_time row;
     dr_issues_all_time := dr_issues_all_time row;
     dr_rg_name := dr_rg_name row;
     dr_base64_url := b64 |}.

(** Truth value of [self.projects]. *)
Definition projects_set (projects : option (list string)) : bool :=
  match projects with
  | None | Some [] => false
  | Some (_ :: _) => true
  end.

(** [downloaded_repos()]; [projects] is [self.projects]. The result of the
    query has no [project_name] column, so the filter on it raises. *)
Definition downloaded_repos (db : store) (projects : option (list string))
  : result (list downloaded_repo) :=
  results <- map_result (fun row => url <- url_of (dr_url row) ;; Ok (set_url row url))
                        (downloadedReposSQL db) ;;
  if projects_set projects
  then Raise (AttributeError "'DataFrame' object has no attribute 'project_name'")
  else Ok (map (fun row => set_base64_url row (b64encode (dr_url row))) results).

(** [s] without everything up to and including the first occurrence of
    [sep]; [None] when [sep] does not occur. *)
Fixpoint strip_through_first (sep s : string) {struct s} : option string :=
  if prefix sep s then Some (string_drop (String.length sep) s)
  else match s with
       | EmptyString => None
       | String _ s' => strip_through_first sep s'
       end.

(** [s] up to its first occurrence of [sep], all of [s] when there is
    none. *)
Fixpoint up_to_first (sep s : string) {struct s} : string :=
  if prefix sep s then EmptyString
  else match s with
       | EmptyString => EmptyString
       | String c s' => String c (up_to_first sep s')
       end.

(** ** The catalog: metrics that take [repo_id], and the columns each query
    variant selects *)

Inductive metric : Type :=
| M_code_changes
| M_pull_requests_merge_contributor_new
| M_issues_first_time_opened
| M_issues_first_time_closed
| M_sub_projects
| M_contributors
| M_contributors_new
| M_code_changes_lines
| M_issues_new
| M_issues_active
| M_issues_closed
| M_issue_duration
| M_issue_participants
| M_issue_backlog
| M_issue_throughput
| M_issues_open_age
| M_issues_closed_resolution_duration
| M_cii_best_practices_badge
| M_average_issue_resolution_time
| M_forks
| M_fork_count
| M_languages
| M_license_declared
| M_issues_maintainer_response_duration
| M_stars
| M_stars_count
| M_watchers
| M_watchers_count
| M_lines_changed_by_author
| M_open_issues_count
| M_closed_issues_count
| M_annual_commit_count_ranked_by_new_repo_in_repo_group
| M_annual_commit_count_ranked_by_repo_in_repo_group
| M_annual_lines_of_code_count_ranked_by_new_repo_in_repo_group
| M_annual_lines_of_code_count_ranked_by_repo_in_repo_group
| M_top_committers
| M_get_issues.

(** The query variant a call runs. *)
Inductive variant : Type := GroupScoped | SingleProject.

(** [if not repo_id: ... else: ...] (or [if repo_id:] with the branches
    swapped). *)
Definition variant_of (repo_id : option Z) : variant :=
  if negb (truthy repo_id) then GroupScoped else SingleProject.

(** Columns of the group-scoped query. *)
Definition group_columns (m : metric) : list string :=
  match m with
  | M_code_changes => ["repo_id"; "repo_name"; "date"; "commit_count"]
  | M_pull_requests_merge_contributor_new =>
      ["repo_id"; "repo_name"; "commit_date"; "count"]
  | M_issues_first_time_opened => ["repo_id"; "repo_name"; "issue_date"; "count"]
  | M_issues_first_time_closed => ["issue_date"; "count"; "repo_name"; "repo_id"]
  | M_sub_projects => ["sub_project_count"]
  | M_contributors =>
      ["user_id"; "commits"; "issues"; "commit_comments"; "issue_comments";
       "pull_requests"; "pull_request_comments"; "total"; "repo_id"; "repo_name"]
  | M_contributors_new => ["contribute_at"; "count"; "repo_id"; "repo_name"]
  | M_code_changes_lines => ["repo_id"; "repo_name"; "date"; "added"; "removed"]
  | M_issues_new => ["repo_id"; "repo_name"; "date"; "issues"]
  | M_issues_active => ["repo_id"; "repo_name"; "date"; "issues"]
  | M_issues_closed => ["repo_id"; "repo_name"; "date"; "issues"]
  | M_issue_duration =>
      ["repo_id"; "repo_name"; "issue_id"; "created_at"; "closed_at"; "duration"]
  | M_issue_participants =>
      ["repo_id"; "repo_name"; "issue_id"; "created_at"; "participants"]
  | M_issue_backlog => ["repo_id"; "repo_name"; "issue_backlog"]
  | M_issue_throughput => ["repo_id"; "repo_name"; "throughput"]
  | M_issues_open_age => ["repo_id"; "repo_name"; "issue_id"; "date"; "open_date"]
  | M_issues_closed_resolution_duration =>
      ["repo_id"; "repo_name"; "gh_issue_number"; "issue_title"; "created_at";
       "closed_at"; "diffdate"]
  | M_cii_best_practices_badge => ["repo_id"; "repo_name"; "badge_level"]
  | M_average_issue_resolution_time =>
      ["repo_id"; "repo_name"; "avg_issue_resolution_time"]
  | M_forks => ["repo_id"; "repo_name"; "date"; "forks"]
  | M_fork_count => ["repo_id"; "repo_name"; "forks"]
  | M_languages => ["repo_name"; "repo_id"; "primary_language"]
  | M_license_declared => ["repo_id"; "repo_name"; "license"]
  | M_issues_maintainer_response_duration =>
      ["repo_id"; "repo_name"; "average_days_comment"]
  | M_stars => ["repo_id"; "repo_name"; "date"; "stars"]
  | M_stars_count => ["repo_id"; "repo_name"; "stars"]
  | M_watchers => ["repo_id"; "repo_name"; "date"; "watchers"]
  | M_watchers_count => ["repo_id"; "repo_name"; "watchers"]
  | M_lines_changed_by_author =>
      ["cmt_author_email"; "cmt_author_date"; "affiliation"; "additions";
       "deletions"; "whitespace"]
  | M_open_issues_count => ["rg_name"; "open_count"; "date"]
  | M_closed_issues_count => ["rg_name"; "closed_count"; "date"]
  | M_annual_commit_count_ranked_by_new_repo_in_repo_group =>
      ["repo_id"; "net"; "patches"; "repo_name"]
  | M_annual_commit_count_ranked_by_repo_in_repo_group =>
      ["repo_id"; "name"; "net"; "patches"]
  | M_annual_lines_of_code_count_ranked_by_new_repo_in_repo_group =>
      ["repo_id"; "net"; "patches"; "repo_name"]
  | M_annual_lines_of_code_count_ranked_by_repo_in_repo_group =>
      ["repo_id"; "name"; "net"; "patches"]
  | M_top_committers => ["repo_group_id"; "repo_group_name"; "email"; "commits"]
  | M_get_issues =>
      ["issue_title"; "issue_id"; "repo_id"; "html_url"; "status"; "date"; "count";
       "last_event_date"; "open_day"]
  end%string.

(** Columns of the single-project query. *)
Definition single_columns (m : metric) : list string :=
  match m with
  | M_code_changes => ["repo_name"; "date"; "commit_count"]
  | M_pull_requests_merge_contributor_new => ["commit_date"; "count"; "repo_name"]
  | M_issues_first_time_opened => ["issue_date"; "count"; "repo_name"]
  | M_issues_first_time_closed => ["issue_date"; "count"; "repo_name"]
  | M_sub_projects => ["sub_project_count"]
  | M_contributors =>
      ["user_id"; "commits"; "issues"; "commit_comments"; "issue_comments";
       "pull_requests"; "pull_request_comments"; "total"; "repo_id"; "repo_name"]
  | M_contributors_new => ["contribute_at"; "count"; "repo_id"; "repo_name"]
  | M_code_changes_lines => ["repo_name"; "date"; "added"; "removed"]
  | M_issues_new => ["repo_name"; "date"; "issues"]
  | M_issues_active => ["repo_name"; "date"; "issues"]
  | M_issues_closed => ["repo_name"; "date"; "issues"]
  | M_issue_duration => ["repo_name"; "issue_id"; "created_at"; "closed_at"; "duration"]
  | M_issue_participants => ["repo_name"; "issue_id"; "created_at"; "participants"]
  | M_issue_backlog => ["repo_name"; "issue_backlog"]
  | M_issue_throughput => ["repo_name"; "throughput"]
  | M_issues_open_age => ["repo_id"; "repo_name"; "issue_id"; "date"; "open_date"]
  | M_issues_closed_resolution_duration =>
      ["repo_id"; "repo_name"; "gh_issue_number"; "issue_title"; "created_at";
       "closed_at"; "diffdate"]
  | M_cii_best_practices_badge => ["repo_name"; "badge_level"]
  | M_average_issue_resolution_time => ["repo_name"; "avg_issue_resolution_time"]
  | M_forks => ["repo_name"; "date"; "forks"]
  | M_fork_count => ["repo_name"; "forks"]
  | M_languages => ["repo_name"; "primary_language"]
  | M_license_declared => ["repo_name"; "license"]
  | M_issues_maintainer_response_duration =>
      ["repo_id"; "repo_name"; "average_days_comment"]
  | M_stars => ["repo_name"; "date"; "stars"]
  | M_stars_count => ["repo_name"; "stars"]
  | M_watchers => ["repo_name"; "date"; "watchers"]
  | M_watchers_count => ["repo_name"; "watchers"]
  | M_lines_changed_by_author =>
      ["cmt_author_email"; "cmt_author_date"; "affiliation"; "additions";
       "deletions"; "whitespace"; "repo_name"]
  | M_open_issues_count => ["repo_id"; "open_count"; "date"; "repo_name"]
  | M_closed_issues_count => ["repo_id"; "closed_count"; "date"; "repo_name"]
  | M_annual_commit_count_ranked_by_new_repo_in_repo_group =>
      ["repo_id"; "net"; "patches"; "repo_name"]
  | M_annual_commit_count_ranked_by_repo_in_repo_group =>
      ["repo_id"; "name"; "net"; "patches"]
  | M_annual_lines_of_code_count_ranked_by_new_repo_in_repo_group =>
      ["repo_id"; "net"; "patches"; "repo_name"]
  | M_annual_lines_of_code_count_ranked_by_repo_in_repo_group =>
      ["repo_id"; "name"; "net"; "patches"]
  | M_top_committers => ["repo_id"; "repo_name"; "email"; "commits"]
  | M_get_issues =>
      ["issue_title"; "issue_id"; "repo_id"; "html_url"; "status"; "date"; "count";
       "last_event_date"; "open_day"; "repo_name"]
  end%string.

Definition variant_columns (m : metric) (v : variant) : list string :=
  match v with
  | GroupScoped => group_columns m
  | SingleProject => single_columns m
  end.

(** Columns of the table a call returns. *)
Definition result_columns (m : metric) (repo_id : option Z) : list string :=
  variant_columns m (variant_of repo_id).

Definition has_column (name : string) (cols : list string) : bool :=
  existsb (String.eqb name) cols.

(** The single-project variant leaves out the [repo_id] column that the
    group-scoped variant selects. *)
Definition drops_repo_id (m : metric) : bool :=
  has_column "repo_id" (group_columns m) && negb (has_column "repo_id" (single_columns m)).

(** The metrics whose single-project variant drops [repo_id]. *)
Definition repo_id_dropping_metrics : list metric :=
  [ M_code_changes; M_pull_requests_merge_contributor_new; M_issues_first_time_opened;
    M_issues_first_time_closed; M_code_changes_lines; M_issues_new; M_issues_active;
    M_issues_closed; M_issue_duration; M_issue_participants; M_issue_backlog;
    M_issue_throughput; M_cii_best_practices_badge; M_average_issue_resolution_time;
    M_forks; M_fork_count; M_languages; M_license_declared; M_stars; M_stars_count;
    M_watchers; M_watchers_count ].

(** The metrics whose two variants select the same columns. *)
Definition same_columns_metrics : list metric :=
  [ M_sub_projects; M_contributors; M_contributors_new; M_issues_open_age;
    M_issues_closed_resolution_duration; M_issues_maintainer_response_duration;
    M_annual_commit_count_ranked_by_new_repo_in_repo_group;
    M_annual_commit_count_ranked_by_repo_in_repo_group;
    M_annual_lines_of_code_count_ranked_by_new_repo_in_repo_group;
    M_annual_lines_of_code_count_ranked_by_repo_in_repo_group ].

(** The metrics whose single-project variant selects more columns, or other
    ones, than the group-scoped variant. *)
Definition other_shape_metrics : list metric :=
  [ M_lines_changed_by_author; M_open_issues_count; M_closed_issues_count;
    M_top_committers; M_get_issues ].

(** The metrics whose group-scoped variant selects no [repo_id] column: the
    count of the group's repos, and tables grouped by author, by group or
    by contributor of the group. *)
Definition no_repo_id_metrics : list metric :=
  [ M_sub_projects; M_lines_changed_by_author; M_open_issues_count;
    M_closed_issues_count; M_top_committers ].

(** ** Sample stores *)

Definition empty_store : store :=
  {| db_repo_groups := []; db_repo := []; db_dm_repo_group_annual := [];
     db_dm_repo_annual := []; db_dm_repo_monthly := []; db_repo_info := [];
     db_commits := []; db_issues := [] |}.

(** Group 1 in 2019: [a] has 5 patches, [b] has 3. *)
Definition store_5_3 : store :=
  {| db_repo_groups := [ {| rg_repo_group_id := 1; rg_name := "g" |} ];
     db_repo := [];
     db_dm_repo_group_annual :=
       [ {| rga_repo_group_id := 1; rga_email := "b"; rga_year := 2019; rga_patches := 3 |};
         {| rga_repo_group_id := 1; rga_email := "a"; rga_year := 2019; rga_patches := 5 |} ];
     db_dm_repo_annual := []; db_dm_repo_monthly := []; db_repo_info := [];
     db_commits := []; db_issues := [] |}.

(** The same group after [a]'s rollup has grown to 10 patches and [b]'s row
    is gone. *)
Definition store_10 : store :=
  {| db_repo_groups := [ {| rg_repo_group_id := 1; rg_name := "g" |} ];
     db_repo := [];
     db_dm_repo_group_annual :=
       [ {| rga_repo_group_id := 1; rga_email := "a"; rga_year := 2019; rga_patches := 10 |} ];
     db_dm_repo_annual := []; db_dm_repo_monthly := []; db_repo_info := [];
     db_commits := []; db_issues := [] |}.

Definition row_a5 : committer :=
  {| scope_id := 1; scope_name := "g"; email := "a"; commits := 5 |}.

Definition row_b3 : committer :=
  {| scope_id := 1; scope_name := "g"; email := "b"; commits := 3 |}.

(** Repo 7 of group 1 with three snapshots, stored out of order. *)
Definition store_snapshots : store :=
  {| db_repo_groups := [ {| rg_repo_group_id := 1; rg_name := "g" |} ];
     db_repo :=
       [ {| r_repo_id := 7; r_repo_group_id := 1; r_repo_name := "augur";
            r_description := ""; r_repo_git := "https://github.com/chaoss/augur";
            r_repo_status := "Complete";
            r_repo_added_year := 2019; r_repo_added_month := 1 |} ];
     db_dm_repo_group_annual := []; db_dm_repo_annual := []; db_dm_repo_monthly := [];
     db_repo_info :=
       [ {| repo_info_id := 12; ri_repo_id := 7; data_collection_date := 200;
            ri_fork_count := 4; ri_stars_count := 40; ri_watchers_count := 14 |};
         {| repo_info_id := 13; ri_repo_id := 7; data_collection_date := 300;
            ri_fork_count := 5; ri_stars_count := 50; ri_watchers_count := 15 |};
         {| repo_info_id := 11; ri_repo_id := 7; data_collection_date := 100;
            ri_fork_count := 3; ri_stars_count := 30; ri_watchers_count := 13 |} ];
     db_commits := []; db_issues := [] |}.

Definition repo_augur : repo_row :=
  {| r_repo_id := 7; r_repo_group_id := 1; r_repo_name := "augur";
     r_description := ""; r_repo_git := "https://github.com/chaoss/augur";
     r_repo_status := "Complete";
     r_repo_added_year := 2019; r_repo_added_month := 1 |}.

(** Group 1 with two repos, their annual rollups and three commits. *)
Definition store_two_repos : store :=
  {| db_repo_groups := [ {| rg_repo_group_id := 1; rg_name := "g" |} ];
     db_repo :=
       [ {| r_repo_id := 7; r_repo_group_id := 1; r_repo_name := "augur";
            r_description := ""; r_repo_git := "https://github.com/chaoss/augur";
            r_repo_status := "Complete";
            r_repo_added_year := 2019; r_repo_added_month := 1 |};
         {| r_repo_id := 8; r_repo_group_id := 1; r_repo_name := "grimoire";
            r_description := ""; r_repo_git := "https://github.com/chaoss/grimoire";
            r_repo_status := "Complete";
            r_repo_added_year := 2019; r_repo_added_month := 2 |} ];
     db_dm_repo_group_annual := [];
     db_dm_repo_annual :=
       [ {| dm_repo_id := 7; dm_email := "a"; dm_year := 2019; dm_added := 10;
            dm_removed := 2; dm_whitespace := 1; dm_patches := 3 |};
         {| dm_repo_id := 8; dm_email := "b"; dm_year := 2019; dm_added := 20;
            dm_removed := 5; dm_whitespace := 0; dm_patches := 4 |} ];
     db_dm_repo_monthly := [];
     db_repo_info := [];
     db_commits :=
       [ {| cmt_id := 1; cmt_repo_id := 7; cmt_commit_hash := Some "c1"%string;
            cmt_committer_date := 86400 |};
         {| cmt_id := 2; cmt_repo_id := 8; cmt_commit_hash := Some "c2"%string;
            cmt_committer_date := 86400 |};
         {| cmt_id := 3; cmt_repo_id := 7; cmt_commit_hash := Some "c3"%string;
            cmt_committer_date := 90000 |};
         {| cmt_id := 4; cmt_repo_id := 7; cmt_commit_hash := Some "c4"%string;
            cmt_committer_date := 172800 |} ];
     db_issues := [] |}.

(** Truncation to the day, for timestamps in seconds. *)
Definition trunc_day (period : string) (ts : Z) : Z := ts / 86400 * 86400.

(** The two repos with their snapshots, stored out of order. *)
Definition store_two_repos_snapshots : store :=
  with_repo_info store_two_repos
    [ {| repo_info_id := 22; ri_repo_id := 7; data_collection_date := 200;
         ri_fork_count := 4; ri_stars_count := 40; ri_watchers_count := 14 |};
      {| repo_info_id := 31; ri_repo_id := 8; data_collection_date := 150;
         ri_fork_count := 9; ri_stars_count := 90; ri_watchers_count := 19 |};
      {| repo_info_id := 21; ri_repo_id := 7; data_collection_date := 100;
         ri_fork_count := 3; ri_stars_count := 30; ri_watchers_count := 13 |} ].

(** Two snapshots of repo 7 whose ids run against their dates. *)
Definition store_ids_against_dates : store :=
  with_repo_info store_two_repos
    [ {| repo_info_id := 1; ri_repo_id := 7; data_collection_date := 200;
         ri_fork_count := 4; ri_stars_count := 40; ri_watchers_count := 14 |};
      {| repo_info_id := 2; ri_repo_id := 7; data_collection_date := 100;
         ri_fork_count := 3; ri_stars_count := 30; ri_watchers_count := 13 |} ].

(** A repo whose URL holds a second '//'. *)
Definition store_double_slash : store :=
  {| db_repo_groups := [ {| rg_repo_group_id := 1; rg_name := "g" |} ];
     db_repo :=
       [ {| r_repo_id := 9; r_repo_group_id := 1; r_repo_name := "repo";
            r_description := ""; r_repo_git := "https://host//repo";
            r_repo_status := "Complete";
            r_repo_added_year := 2019; r_repo_added_month := 3 |} ];
     db_dm_repo_group_annual := []; db_dm_repo_annual := []; db_dm_repo_monthly := [];
     db_repo_info := []; db_commits := []; db_issues := [] |}.

Definition row_double_slash : downloaded_repo :=
  {| dr_repo_id := 9; dr_repo_name := "repo"; dr_description := "";
     dr_url := "host"; dr_repo_status := "Complete";
     dr_commits_all_time := None; dr_issues_all_time := None;
     dr_rg_name := "g"; dr_base64_url := "aG9zdA==" |}.

Definition row_augur : downloaded_repo :=
  {| dr_repo_id := 7; dr_repo_name := "augur"; dr_description := "";
     dr_url := "github.com/chaoss/augur"; dr_repo_status := "Complete";
     dr_commits_all_time := Some 3; dr_issues_all_time := None;
     dr_rg_name := "g"; dr_base64_url := "Z2l0aHViLmNvbS9jaGFvc3MvYXVndXI=" |}.

(* ================================================================== *)
(** * Part II: properties                                              *)
(* ================================================================== *)

(** ** Binary64 facts used by [top_committers] *)

Lemma digits2_pos_bounds (p : positive) :
  2 ^ (Zpos (digits2_pos p) - 1) <= Zpos p < 2 ^ Zpos (digits2_pos p).
Proof.
  induction p as [p IH | p IH |]; cbn [digits2_pos].
  - rewrite Pos2Z.inj_succ.
    replace (Z.succ (Zpos (digits2_pos p)) - 1) with (Z.succ (Zpos (digits2_pos p) - 1)) by lia.
    rewrite !Z.pow_succ_r by lia. lia.
  - rewrite Pos2Z.inj_succ.
    replace (Z.succ (Zpos (digits2_pos p)) - 1) with (Z.succ (Zpos (digits2_pos p) - 1)) by lia.
    rewrite !Z.pow_succ_r by lia. lia.
  - cbn. lia.
Qed.

Lemma digits2_pos_le (p : positive) (n : Z) :
  0 <= n -> Zpos p < 2 ^ n -> Zpos (digits2_pos p) <= n.
Proof.
  intros Hn Hp.
  destruct (Z_le_gt_dec (Zpos (digits2_pos p)) n) as [H | H]; [exact H | exfalso].
  pose proof (digits2_pos_bounds p) as [Hlo _].
  assert (2 ^ n <= 2 ^ (Zpos (digits2_pos p) - 1)) by (apply Z.pow_le_mono_r; lia).
  lia.
Qed.

Lemma iter_xO_spec (p k : positive) :
  Zpos (Pos.iter xO p k) = Zpos p * 2 ^ Zpos k /\
  digits2_pos (Pos.iter xO p k) = (digits2_pos p + k)%positive.
Proof.
  induction k as [| k IHk] using Pos.peano_ind.
  - cbn. split; [lia | now rewrite Pos.add_1_r].
  - rewrite Pos.iter_succ. destruct IHk as [IH1 IH2]. split.
    + rewrite Pos2Z.inj_xO, IH1, Pos2Z.inj_succ, Z.pow_succ_r by lia. lia.
    + cbn [digits2_pos]. rewrite IH2. lia.
Qed.

Lemma binary_round_aux_canonical (s : bool) (m : positive) (e : Z) :
  Zpos (digits2_pos m) = 53 -> -1074 <= e <= 971 ->
  binary_round_aux prec emax s (Zpos m) e loc_Exact = S754_finite s m e.
Proof.
  intros Hd He.
  unfold binary_round_aux, shr_fexp. cbn [Zdigits2 shr_record_of_loc].
  rewrite Hd.
  assert (Hf : fexp prec emax (53 + e) - e = 0).
  { unfold fexp, emin, prec, emax. lia. }
  rewrite Hf. cbn [shr shr_m loc_of_shr_record round_nearest_even Zdigits2 shr_record_of_loc].
  rewrite Hd, Hf. cbn [shr shr_m].
  replace (e <=? emax - prec) with true; [reflexivity |].
  symmetry. apply Z.leb_le. unfold emax, prec. lia.
Qed.

Lemma binary_round_small (s : bool) (p : positive) :
  Zpos p < 2 ^ 53 ->
  binary_round prec emax s p 0 = sf_of_pos s p.
Proof.
  intros Hp. pose proof (digits2_pos_le p 53 ltac:(lia) Hp) as Hd.
  unfold binary_round, shl_align, sf_of_pos.
  assert (Hf : fexp prec emax (Zpos (digits2_pos p) + 0) - 0 = - (53 - Zpos (digits2_pos p))).
  { unfold fexp, emin, prec, emax. lia. }
  rewrite Hf.
  destruct (53 - Zpos (digits2_pos p)) as [| k | k] eqn:Hk; cbn [Z.opp].
  - apply binary_round_aux_canonical; lia.
  -    assert (Hf' : fexp prec emax (Zpos (digits2_pos p) + 0) = - Zpos k).
    { unfold fexp, emin, prec, emax. lia. }
    rewrite Hf'. apply binary_round_aux_canonical.
    + destruct (iter_xO_spec p k) as [_ ->]. lia.
    + lia.
  - lia.
Qed.

Lemma sf_of_pos_shape (s : bool) (p : positive) :
  Zpos p < 2 ^ 53 ->
  exists m e, sf_of_pos s p = S754_finite s m e /\
              Zpos (digits2_pos m) = 53 /\ -52 <= e <= 0 /\
              Zpos m = Zpos p * 2 ^ (- e).
Proof.
  intros Hp. pose proof (digits2_pos_le p 53 ltac:(lia) Hp) as Hd.
  unfold sf_of_pos.
  destruct (53 - Zpos (digits2_pos p)) as [| k | k] eqn:Hk.
  - exists p, 0. split; [reflexivity |]. split; [lia |]. split; [lia |].
    cbn. lia.
  - destruct (iter_xO_spec p k) as [Hv Hdig].
    exists (Pos.iter xO p k), (- Zpos k).
    split; [reflexivity |]. split; [rewrite Hdig; lia |]. split; [lia |].
    rewrite Z.opp_involutive. exact Hv.
  - lia.
Qed.

Lemma valid_binary_canonical (s : bool) (m : positive) (e : Z) :
  Zpos (digits2_pos m) = 53 -> -1074 <= e <= 971 ->
  valid_binary (S754_finite s m e) = true.
Proof.
  intros Hd He. unfold SpecFloat.valid_binary, bounded, canonical_mantissa.
  rewrite Hd. apply andb_true_intro. split.
  - apply Z.eqb_eq. unfold fexp, emin, prec, emax. lia.
  - apply Z.leb_le. unfold prec, emax. lia.
Qed.

Lemma SF64mul_one_l (s : bool) (m : positive) (e : Z) :
  Zpos (digits2_pos m) = 53 -> -1022 <= e <= 971 ->
  SF64mul (Prim2SF 1%float) (S754_finite s m e) = S754_finite s m e.
Proof.
  intros Hd He.
  change (Prim2SF 1%float) with (S754_finite false 4503599627370496 (-52)).
  unfold SF64mul, SFmul. cbn [xorb].
  change (4503599627370496 * m)%positive with (Pos.iter xO m 52).
  destruct (iter_xO_spec m 52) as [_ Hdig].
  unfold binary_round_aux, shr_fexp. cbn [Zdigits2 shr_record_of_loc].
  rewrite Hdig.
  assert (Hf : fexp prec emax (Zpos (digits2_pos m + 52) + (-52 + e)) - (-52 + e) = 52).
  { unfold fexp, emin, prec, emax. lia. }
  rewrite Hf. cbn [shr].
  change (iter_pos shr_1 52 {| shr_m := Zpos (Pos.iter xO m 52); shr_r := false; shr_s := false |})
    with {| shr_m := Zpos m; shr_r := false; shr_s := false |}.
  cbn [shr_m loc_of_shr_record round_nearest_even Zdigits2 shr_record_of_loc].
  rewrite Hd.
  assert (Hf2 : fexp prec emax (53 + (-52 + e + 52)) - (-52 + e + 52) = 0).
  { unfold fexp, emin, prec, emax. lia. }
  rewrite Hf2. cbn [shr shr_m].
  replace (-52 + e + 52 <=? emax - prec) with true.
  - f_equal. lia.
  - symmetry. apply Z.leb_le. unfold emax, prec. lia.
Qed.

Lemma round_half_even_exact (m p : positive) (e : Z) :
  -52 <= e <= 0 -> Zpos m = Zpos p * 2 ^ (- e) ->
  round_half_even m e = Zpos p.
Proof.
  intros He Hm. unfold round_half_even.
  destruct e as [| k | k].
  - cbn in Hm. lia.
  - lia.
  - cbn [Z.opp] in Hm. rewrite Hm.
    assert (Hpow : 0 < 2 ^ Zpos k) by (apply Z.pow_pos_nonneg; lia).
    rewrite Z.div_mul, Z.mod_mul by lia.
    cbn [Z.mul]. destruct (0 ?= 2 ^ Zpos k) eqn:Hc.
    + apply Z.compare_eq in Hc. lia.
    + reflexivity.
    + apply Z.compare_gt_iff in Hc. lia.
Qed.

(** Integers of at most 53 bits convert exactly. *)
Lemma float_of_int_small (z : Z) :
  Z.abs z < 2 ^ 53 ->
  exists f, float_of_int z = Ok f /\
            match z with
            | Z0 => Prim2SF f = S754_zero false
            | Zpos p => Prim2SF f = sf_of_pos false p
            | Zneg p => Prim2SF f = sf_of_pos true p
            end.
Proof.
  intros Hz. unfold float_of_int, binary_normalize.
  destruct z as [| p | p].
  - eexists. split; [reflexivity | reflexivity].
  - rewrite binary_round_small by (cbn in Hz; lia).
    destruct (sf_of_pos_shape false p) as (m & e & -> & Hd & He & _); [cbn in Hz; lia |].
    eexists. split; [reflexivity |].
    apply Prim2SF_SF2Prim, valid_binary_canonical; lia.
  - rewrite binary_round_small by (cbn in Hz; lia).
    destruct (sf_of_pos_shape true p) as (m & e & -> & Hd & He & _); [cbn in Hz; lia |].
    eexists. split; [reflexivity |].
    apply Prim2SF_SF2Prim, valid_binary_canonical; lia.
Qed.

Lemma threshold_commits_one (total : Z) :
  Z.abs total < 2 ^ 53 -> threshold_commits_of 1 total = Ok total.
Proof.
  intros Hz. unfold threshold_commits_of.
  destruct (float_of_int_small total Hz) as (f & -> & Hf). cbn [bind].
  unfold python_round. rewrite mul_spec.
  destruct total as [| p | p].
  - rewrite Hf. reflexivity.
  - destruct (sf_of_pos_shape false p) as (m & e & Hs & Hd & He & Hm); [cbn in Hz; lia |].
    rewrite Hf, Hs, SF64mul_one_l by lia.
    now rewrite (round_half_even_exact m p e He Hm).
  - destruct (sf_of_pos_shape true p) as (m & e & Hs & Hd & He & Hm); [cbn in Hz; lia |].
    rewrite Hf, Hs, SF64mul_one_l by lia.
    now rewrite (round_half_even_exact m p e He Hm).
Qed.

Lemma threshold_commits_zero (total : Z) :
  Z.abs total < 2 ^ 53 -> threshold_commits_of 0 total = Ok 0.
Proof.
  intros Hz. unfold threshold_commits_of.
  destruct (float_of_int_small total Hz) as (f & -> & Hf). cbn [bind].
  unfold python_round. rewrite mul_spec.
  change (Prim2SF 0%float) with (S754_zero false).
  destruct total as [| p | p].
  - rewrite Hf. reflexivity.
  - destruct (sf_of_pos_shape false p) as (m & e & Hs & _); [cbn in Hz; lia |].
    rewrite Hf, Hs. reflexivity.
  - destruct (sf_of_pos_shape true p) as (m & e & Hs & _); [cbn in Hz; lia |].
    rewrite Hf, Hs. reflexivity.
Qed.

(** *** No overflow for thresholds in the unit interval *)

Lemma iter_pos_invariant {A : Type} (P : A -> Prop) (f : A -> A) :
  (forall x, P x -> P (f x)) ->
  forall (k : positive) (x : A), P x -> P (iter_pos f k x).
Proof.
  intros Hf. induction k as [k IH | k IH |]; intros x Hx; cbn [iter_pos]; auto.
Qed.

Lemma shr_1_bounds (B : Z) (mrs : shr_record) :
  0 <= shr_m mrs <= B -> 0 <= shr_m (shr_1 mrs) <= B.
Proof.
  destruct mrs as [m r s]. cbn [shr_m]. intros Hm.
  destruct m as [| [p | p |] | p]; cbn [shr_1 shr_m]; lia.
Qed.

Lemma shr_bounds (B : Z) (mrs : shr_record) (e n : Z) :
  0 <= shr_m mrs <= B ->
  0 <= shr_m (fst (shr mrs e n)) <= B /\
  snd (shr mrs e n) = (if 0 <? n then e + n else e).
Proof.
  intros Hm. destruct n as [| k | k]; cbn [shr fst snd]; split; try assumption;
    try reflexivity.
  apply (iter_pos_invariant (fun x => 0 <= shr_m x <= B)); [| assumption].
  intros x. apply shr_1_bounds.
Qed.

Lemma round_nearest_even_bounds (m : Z) (l : location) :
  0 <= m -> 0 <= round_nearest_even m l <= m + 1.
Proof.
  intros Hm. destruct l as [| []]; cbn [round_nearest_even];
    try destruct (Z.even m); lia.
Qed.

Lemma Zdigits2_le (x n : Z) : 0 <= n -> 0 <= x < 2 ^ n -> 0 <= Zdigits2 x <= n.
Proof.
  intros Hn Hx. destruct x as [| p | p]; cbn [Zdigits2]; [lia | | lia].
  split; [lia |]. apply digits2_pos_le; lia.
Qed.

Lemma binary_round_aux_finite (s : bool) (M : positive) (ex : Z) :
  Zpos M < 2 ^ 106 -> ex <= 0 ->
  sf_is_finite (binary_round_aux prec emax s (Zpos M) ex loc_Exact) = true.
Proof.
  intros HM Hex. unfold binary_round_aux, shr_fexp.
  cbn [shr_record_of_loc].
  set (n1 := fexp prec emax (Zdigits2 (Zpos M) + ex) - ex).
  pose proof (Zdigits2_le (Zpos M) 106 ltac:(lia) ltac:(lia)) as Hd.
  destruct (shr_bounds (Zpos M) {| shr_m := Zpos M; shr_r := false; shr_s := false |} ex n1)
    as [Hm1 He1]; [cbn; lia |].
  destruct (shr _ ex n1) as [mrs' e'] eqn:Hs1. cbn [fst snd] in Hm1, He1.
  pose proof (round_nearest_even_bounds (shr_m mrs') (loc_of_shr_record mrs') ltac:(lia)) as Hr.
  set (m1 := round_nearest_even (shr_m mrs') (loc_of_shr_record mrs')) in *.
  set (n2 := fexp prec emax (Zdigits2 m1 + e') - e').
  pose proof (Zdigits2_le m1 107 ltac:(lia) ltac:(change (2 ^ 107) with (2 * 2 ^ 106); lia)) as Hd1.
  destruct (shr_bounds (Zpos M + 1) {| shr_m := m1; shr_r := false; shr_s := false |} e' n2)
    as [Hm2 He2]; [cbn; lia |].
  destruct (shr _ e' n2) as [mrs'' e''] eqn:Hs2. cbn [fst snd] in Hm2, He2.
  assert (He' : e' <= 53).
  { subst e'. destruct (0 <? n1) eqn:Hn; [| lia].
    subst n1. unfold fexp, emin, prec, emax in *. lia. }
  assert (He'' : e'' <= 971).
  { subst e''. destruct (0 <? n2) eqn:Hn; [| lia].
    subst n2. unfold fexp, emin, prec, emax in *. lia. }
  destruct (shr_m mrs'') as [| m | m]; [reflexivity | | lia].
  replace (e'' <=? emax - prec) with true; [reflexivity |].
  symmetry. apply Z.leb_le. unfold emax, prec. lia.
Qed.

Lemma in_unit_interval_shape (t : float) :
  in_unit_interval t = true ->
  (exists s, Prim2SF t = S754_zero s) \/
  (exists m e, Prim2SF t = S754_finite false m e /\ e <= -52 /\ Zpos m < 2 ^ 53).
Proof.
  unfold in_unit_interval. rewrite !leb_spec.
  change (Prim2SF 0%float) with (S754_zero false).
  change (Prim2SF 1%float) with (S754_finite false 4503599627370496 (-52)).
  pose proof (Prim2SF_valid t) as Hv.
  destruct (Prim2SF t) as [s | s | | s m e]; intros H.
  - left. now exists s.
  - destruct s; discriminate H.
  - discriminate H.
  - right. destruct s; [discriminate H |]. exists m, e. split; [reflexivity |].
    apply andb_prop in H. destruct H as [_ H]. unfold SFleb, SFcompare in H.
    unfold SpecFloat.valid_binary, bounded, canonical_mantissa in Hv.
    apply andb_prop in Hv. destruct Hv as [Hc _]. apply Z.eqb_eq in Hc.
    pose proof (digits2_pos_bounds m) as [_ Hub].
    assert (Hdig : Zpos (digits2_pos m) <= 53).
    { unfold fexp, emin, prec, emax in Hc. lia. }
    assert (2 ^ Zpos (digits2_pos m) <= 2 ^ 53) by (apply Z.pow_le_mono_r; lia).
    split; [| lia].
    destruct (Z.compare_spec e (-52)); [lia | lia | discriminate H].
Qed.

Lemma sf_is_finite_round (x : float) :
  sf_is_finite (Prim2SF x) = true -> exists z, python_round x = Ok z.
Proof.
  unfold python_round. destruct (Prim2SF x); intros H; try discriminate H; eauto.
Qed.

(** [round(threshold * total_commits)] is an integer for every threshold
    in [0, 1] and every total of at most 53 bits. *)
Lemma threshold_commits_total (threshold : float) (total : Z) :
  in_unit_interval threshold = true -> Z.abs total < 2 ^ 53 ->
  exists tc, threshold_commits_of threshold total = Ok tc.
Proof.
  intros Ht Hz. unfold threshold_commits_of.
  destruct (float_of_int_small total Hz) as (f & -> & Hf). cbn [bind].
  apply sf_is_finite_round. rewrite mul_spec.
  assert (Hfs : (exists s, Prim2SF f = S754_zero s) \/
                (exists s m e, Prim2SF f = S754_finite s m e /\ e <= 0 /\ Zpos m < 2 ^ 53)).
  { destruct total as [| p | p].
    - left. eauto.
    - right. destruct (sf_of_pos_shape false p) as (m & e & Hs & Hd & He & Hm); [cbn in Hz; lia |].
      exists false, m, e. rewrite Hf, Hs. split; [reflexivity |]. split; [lia |].
      pose proof (digits2_pos_bounds m). rewrite Hd in *. lia.
    - right. destruct (sf_of_pos_shape true p) as (m & e & Hs & Hd & He & Hm); [cbn in Hz; lia |].
      exists true, m, e. rewrite Hf, Hs. split; [reflexivity |]. split; [lia |].
      pose proof (digits2_pos_bounds m). rewrite Hd in *. lia. }
  destruct (in_unit_interval_shape threshold Ht) as [[st ->] | (mt & et & -> & Het & Hmt)];
    destruct Hfs as [[sf ->] | (sf & mf & ef & -> & Hef & Hmf)]; try reflexivity.
  unfold SF64mul, SFmul. apply binary_round_aux_finite.
  - rewrite Pos2Z.inj_mul. change (2 ^ 106) with (2 ^ 53 * 2 ^ 53). nia.
  - lia.
Qed.

(** ** The scan of [top_committers] *)

Lemma sum_commits_app (l1 l2 : list committer) :
  sum_commits (l1 ++ l2) = sum_commits l1 + sum_commits l2.
Proof.
  unfold sum_commits, sum_Z. induction l1 as [| x l1 IH]; cbn; [reflexivity | lia].
Qed.

Lemma firstn_snoc {A : Type} (pre : list A) (x : A) (rest : list A) :
  firstn (List.length pre + 1) (pre ++ x :: rest) = pre ++ [x].
Proof.
  induction pre as [| y pre IH]; cbn; [reflexivity | now rewrite IH].
Qed.

(** What the loop computes, from any point of the iteration: it leaves with
    a prefix of [results], the sum of that prefix, and the index of its last
    row; no shorter non-empty prefix reaches the threshold, and the prefix
    kept reaches it unless it is the whole table. *)
Lemma iterrows_spec (tc : Z) (results : list committer) :
  forall (rest pre : list committer),
    results = pre ++ rest ->
    (forall j, (1 <= j <= List.length pre)%nat -> sum_commits (firstn j results) < tc) ->
    exists k : nat,
      (List.length pre <= k <= List.length results)%nat /\
      (rest <> [] -> (List.length pre < k)%nat) /\
      iterrows tc results rest (List.length pre) (last_index (List.length pre))
               (sum_commits pre)
      = {| st_i := last_index k;
           st_cumsum := sum_commits (firstn k results);
           st_results := firstn k results |} /\
      (forall j, (1 <= j < k)%nat -> sum_commits (firstn j results) < tc) /\
      (tc <= sum_commits (firstn k results) \/ k = List.length results).
Proof.
  induction rest as [| row rest IH]; intros pre Hres Hlt.
  - rewrite app_nil_r in Hres. subst pre. exists (List.length results).
    cbn [iterrows]. rewrite firstn_all.
    split; [lia |]. split; [congruence |]. split; [reflexivity |].
    split; [| now right].
    intros j Hj. apply Hlt. lia.
  - cbn [iterrows].
    assert (Hpre : firstn (List.length pre + 1) results = pre ++ [row]).
    { rewrite Hres. apply firstn_snoc. }
    assert (Hsum : sum_commits (pre ++ [row]) = sum_commits pre + commits row).
    { rewrite sum_commits_app. unfold sum_commits, sum_Z. cbn. lia. }
    destruct (tc <=? sum_commits pre + commits row) eqn:Hcmp.
    + apply Z.leb_le in Hcmp. exists (List.length pre + 1)%nat.
      rewrite Hpre, Hsum.
      assert (Hlen : List.length results = (List.length pre + S (List.length rest))%nat).
      { rewrite Hres, length_app. reflexivity. }
      split; [lia |]. split; [lia |]. split; [| split; [| now left]].
      * replace (List.length pre + 1)%nat with (S (List.length pre)) by lia. reflexivity.
      * intros j Hj. apply Hlt. lia.
    + apply Z.leb_gt in Hcmp.
      destruct (IH (pre ++ [row])) as (k & Hk & Hne & Hrun & Hmin & Hreach).
      * rewrite <- app_assoc. exact Hres.
      * intros j Hj. rewrite length_app in Hj. cbn in Hj.
        destruct (Nat.eq_dec j (List.length pre + 1)) as [-> | Hneq].
        -- rewrite Hpre, Hsum. lia.
        -- apply Hlt. lia.
      * rewrite length_app in Hk, Hne, Hrun. cbn [List.length] in Hk, Hne, Hrun.
        exists k. split; [lia |]. split; [lia |]. split; [| now split].
        rewrite <- Hrun, Hsum.
        replace (List.length pre + 1)%nat with (S (List.length pre)) by lia.
        reflexivity.
Qed.

Lemma scan_spec (tc : Z) (results : list committer) :
  exists k : nat,
    (k <= List.length results)%nat /\
    (results <> [] -> (1 <= k)%nat) /\
    scan tc results = {| st_i := last_index k;
                         st_cumsum := sum_commits (firstn k results);
                         st_results := firstn k results |} /\
    (forall j, (1 <= j < k)%nat -> sum_commits (firstn j results) < tc) /\
    (tc <= sum_commits (firstn k results) \/ k = List.length results).
Proof.
  destruct (iterrows_spec tc results results []) as (k & Hk & Hne & Hrun & Hmin & Hreach).
  - reflexivity.
  - cbn. intros j Hj. lia.
  - exists k. cbn in Hk, Hne, Hrun. split; [lia |]. split; [| now split].
    intros H. specialize (Hne H). lia.
Qed.

Lemma loc_set_new {A : Type} (l : list A) (x : A) :
  loc_set l (List.length l) x = l ++ [x].
Proof.
  unfold loc_set. now rewrite Nat.ltb_irrefl.
Qed.

(** The table built from a non-empty committers table: a non-empty prefix
    and the synthetic row. *)
Lemma scan_and_annotate_spec (total tc : Z) (results : list committer)
      (repo_group_id : Z) (repo_id : option Z) :
  results <> [] ->
  exists (k : nat) (first : committer),
    (1 <= k <= List.length results)%nat /\
    nth_error results 0 = Some first /\
    scan_and_annotate total tc results repo_group_id repo_id
    = Ok (firstn k results ++
          [other_contributors
             (scope_of repo_group_id repo_id)
             (scope_name first)
             (total - sum_commits (firstn k results))]) /\
    (forall j, (1 <= j < k)%nat -> sum_commits (firstn j results) < tc) /\
    (tc <= sum_commits (firstn k results) \/ k = List.length results).
Proof.
  intros Hne.
  destruct (scan_spec tc results) as (k & Hk & Hk1 & Hscan & Hmin & Hreach).
  specialize (Hk1 Hne).
  destruct results as [| first results']; [congruence |].
  exists k, first. split; [lia |]. split; [reflexivity |]. split; [| now split].
  unfold scan_and_annotate. rewrite Hscan. cbn [st_results st_i st_cumsum].
  destruct k as [| k']; [lia |].
  cbn [firstn nth_error last_index].
  replace (k' + 1)%nat with (List.length (first :: firstn k' results')).
  - rewrite loc_set_new. reflexivity.
  - cbn [List.length]. rewrite length_firstn. cbn [List.length] in Hk. lia.
Qed.

Lemma in_unit_interval_in_range (threshold : float) :
  in_unit_interval threshold = true -> out_of_range threshold = false.
Proof.
  intros H. pose proof (in_unit_interval_shape threshold H) as Hs.
  unfold out_of_range. rewrite !ltb_spec.
  change (Prim2SF 0%float) with (S754_zero false).
  change (Prim2SF 1%float) with (S754_finite false 4503599627370496 (-52)).
  unfold in_unit_interval in H. rewrite !leb_spec in H.
  change (Prim2SF 0%float) with (S754_zero false) in H.
  change (Prim2SF 1%float) with (S754_finite false 4503599627370496 (-52)) in H.
  apply andb_prop in H. destruct H as [_ H1].
  destruct Hs as [[s Hs] | (m & e & Hs & He & Hm)]; rewrite Hs in *.
  - reflexivity.
  - unfold SFltb, SFleb, SFcompare in *. cbn [orb].
    rewrite (Z.compare_antisym e (-52)).
    destruct (e ?= -52) eqn:Hc; cbn [CompOpp]; try reflexivity; try discriminate H1.
    assert (Hanti : Pos.compare_cont Eq 4503599627370496 m
                    = CompOpp (Pos.compare_cont Eq m 4503599627370496))
      by (symmetry; apply (Pos.compare_cont_antisym m 4503599627370496 Eq)).
    rewrite Hanti.
    destruct (Pos.compare_cont Eq m 4503599627370496); try reflexivity; discriminate H1.
Qed.

(** For a threshold that is a number, the range check fails exactly when it
    is not in the unit interval. *)
Lemma out_of_range_spec (threshold : float) :
  Prim2SF threshold <> S754_nan ->
  out_of_range threshold = negb (in_unit_interval threshold).
Proof.
  intros Hnan. unfold out_of_range, in_unit_interval.
  rewrite !ltb_spec, !leb_spec.
  change (Prim2SF 0%float) with (S754_zero false).
  change (Prim2SF 1%float) with (S754_finite false 4503599627370496 (-52)).
  destruct (Prim2SF threshold) as [s | s | | s m e]; [| | congruence |].
  - reflexivity.
  - now destruct s.
  - destruct s; [reflexivity |].
    unfold SFltb, SFleb, SFcompare. cbn [orb andb negb].
    rewrite (Z.compare_antisym e (-52)).
    destruct (e ?= -52) eqn:Hc; cbn [CompOpp]; try reflexivity.
    assert (Hanti : Pos.compare_cont Eq 4503599627370496 m
                    = CompOpp (Pos.compare_cont Eq m 4503599627370496))
      by (symmetry; apply (Pos.compare_cont_antisym m 4503599627370496 Eq)).
    rewrite Hanti. now destruct (Pos.compare_cont Eq m 4503599627370496).
Qed.

(** NaN compares false with both bounds: it passes the range check, and
    [round] rejects it later. *)
Lemma nan_passes_range_check :
  out_of_range nan = false /\
  in_unit_interval nan = false /\
  top_committers store_5_3 store_5_3 2019 1 None None nan
  = Raise (ValueError "cannot convert float NaN to integer").
Proof.
  repeat split; reflexivity.
Qed.

Lemma int4_53 (z : Z) : int4 z -> Z.abs z < 2 ^ 53.
Proof.
  unfold int4. change (2 ^ 31) with 2147483648. change (2 ^ 53) with 9007199254740992. lia.
Qed.

(** ** What the two queries can raise *)

Lemma cast_int4_ok (z z' : Z) : cast_int4 z = Ok z' -> z' = z /\ int4 z.
Proof.
  unfold cast_int4, int4.
  destruct ((- 2 ^ 31 <=? z) && (z <? 2 ^ 31)) eqn:H; intros E; [| discriminate E].
  apply andb_prop in H. destruct H as [H1 H2].
  apply Z.leb_le in H1. apply Z.ltb_lt in H2. injection E as <-. auto.
Qed.

Lemma cast_int4_raise (z : Z) (e : exn) :
  cast_int4 z = Raise e -> e = StoreFailure "integer out of range".
Proof.
  unfold cast_int4. destruct ((- 2 ^ 31 <=? z) && (z <? 2 ^ 31)); congruence.
Qed.

Lemma sql_int4_ok (v : option Z) (T : Z) : sql_int4 v = Ok (Some T) -> v = Some T /\ int4 T.
Proof.
  destruct v as [z |]; cbn [sql_int4]; [| discriminate].
  destruct (cast_int4 z) as [z' | e] eqn:Hc; cbn [bind]; [| discriminate].
  intros E. injection E as <-. apply cast_int4_ok in Hc. destruct Hc as [-> Hz]. auto.
Qed.

Lemma sql_int4_raise (v : option Z) (e : exn) :
  sql_int4 v = Raise e -> e = StoreFailure "integer out of range".
Proof.
  destruct v as [z |]; cbn [sql_int4]; [| discriminate].
  destruct (cast_int4 z) as [z' | e'] eqn:Hc; cbn [bind]; [discriminate |].
  intros E. injection E as <-. now apply cast_int4_raise in Hc.
Qed.

Lemma total_commits_SQL_int4 (db : store) (year g : Z) (r : option Z) (T : Z) :
  total_commits_SQL db year g r = Ok (Some T) -> int4 T.
Proof.
  unfold total_commits_SQL. destruct (negb (truthy r)); intros H;
    now apply sql_int4_ok in H.
Qed.

Lemma total_commits_SQL_raise (db : store) (year g : Z) (r : option Z) (e : exn) :
  total_commits_SQL db year g r = Raise e -> e = StoreFailure "integer out of range".
Proof.
  unfold total_commits_SQL. destruct (negb (truthy r)); apply sql_int4_raise.
Qed.

Lemma map_result_raise {A B : Type} (f : A -> result B) (e0 : exn) :
  (forall x e, f x = Raise e -> e = e0) ->
  forall l e, map_result f l = Raise e -> e = e0.
Proof.
  intros Hf. induction l as [| x l IH]; intros e; cbn [map_result]; [discriminate |].
  destruct (f x) as [y | e'] eqn:Hx; cbn [bind].
  - destruct (map_result f l) as [ys | e''] eqn:Hl; cbn [bind]; [discriminate |].
    intros E. injection E as <-. now apply IH.
  - intros E. injection E as <-. now apply (Hf x).
Qed.

Lemma committers_of_raise {A : Type} (key : A -> committer_key) (patches : A -> Z)
      (joined : list A) (e : exn) :
  committers_of key patches joined = Raise e -> e = StoreFailure "integer out of range".
Proof.
  unfold committers_of.
  match goal with |- context [map_result ?f ?l] =>
    destruct (map_result f l) as [rows | e'] eqn:Hm end; cbn [bind]; [discriminate |].
  intros E. injection E as <-.
  revert Hm. apply map_result_raise. intros [[i n] m] e0.
  destruct (cast_int4 _) as [c | e1] eqn:Hc; cbn [bind]; [discriminate |].
  intros E. injection E as <-. now apply cast_int4_raise in Hc.
Qed.

Lemma committers_SQL_raise (db : store) (year g : Z) (r : option Z) (e : exn) :
  committers_SQL db year g r = Raise e -> e = StoreFailure "integer out of range".
Proof.
  unfold committers_SQL. destruct (negb (truthy r)); apply committers_of_raise.
Qed.

Lemma threshold_commits_of_raise (threshold : float) (total : Z) (e : exn) :
  threshold_commits_of threshold total = Raise e -> e <> invalid_threshold.
Proof.
  unfold threshold_commits_of, float_of_int, python_round, invalid_threshold.
  destruct (binary_normalize prec emax total 0 false); cbn [bind];
    match goal with
    | |- context [Prim2SF ?x] => destruct (Prim2SF x)
    | _ => idtac
    end; intros E; try discriminate E; injection E as <-; discriminate.
Qed.

Lemma scan_and_annotate_raise (total tc : Z) (results : list committer)
      (g : Z) (r : option Z) (e : exn) :
  scan_and_annotate total tc results g r = Raise e -> e <> invalid_threshold.
Proof.
  unfold scan_and_annotate, invalid_threshold.
  destruct (nth_error _ 0); [destruct (st_i _) |]; intros E; try discriminate E;
    injection E as <-; discriminate.
Qed.

(** Past the range check, no step of [top_committers] raises the
    invalid-threshold error. *)
Lemma top_committers_in_range (db db' : store) (cy g : Z) (r year : option Z)
      (threshold : float) :
  out_of_range threshold = false ->
  top_committers db db' cy g r year threshold <> Raise invalid_threshold.
Proof.
  intros Hr. unfold top_committers, check_threshold. rewrite Hr. cbn [bind].
  destruct (total_commits_SQL _ _ _ _) as [sum | e] eqn:H1; cbn [bind].
  2:{ apply total_commits_SQL_raise in H1. subst e. discriminate. }
  destruct sum as [T |]; cbn [int_of_sum bind]; [| discriminate].
  destruct (threshold_commits_of threshold T) as [tc | e] eqn:H2; cbn [bind].
  2:{ apply threshold_commits_of_raise in H2. congruence. }
  destruct (committers_SQL _ _ _ _) as [results | e] eqn:H3; cbn [bind].
  2:{ apply committers_SQL_raise in H3. subst e. discriminate. }
  destruct (scan_and_annotate _ _ _ _ _) as [table | e] eqn:H4; [discriminate |].
  apply scan_and_annotate_raise in H4. congruence.
Qed.

Lemma top_committers_out_of_range (db db' : store) (cy g : Z) (r year : option Z)
      (threshold : float) :
  out_of_range threshold = true ->
  top_committers db db' cy g r year threshold = Raise invalid_threshold.
Proof.
  intros Hr. unfold top_committers, check_threshold. now rewrite Hr.
Qed.

(** [top_committers] on answered queries. *)
Lemma top_committers_run (db db' : store) (cy g : Z) (r year : option Z)
      (threshold : float) (T tc : Z) (results : list committer) :
  out_of_range threshold = false ->
  total_commits_SQL db (year_of cy year) g r = Ok (Some T) ->
  threshold_commits_of threshold T = Ok tc ->
  committers_SQL db' (year_of cy year) g r = Ok results ->
  top_committers db db' cy g r year threshold = scan_and_annotate T tc results g r.
Proof.
  intros Hr Ht Htc Hc. unfold top_committers, check_threshold.
  rewrite Hr. cbn [bind]. rewrite Ht. cbn [bind int_of_sum].
  rewrite Htc. cbn [bind]. rewrite Hc. reflexivity.
Qed.

Lemma sum_commits_firstn_le (k : nat) (results : list committer) :
  Forall (fun row => 0 <= commits row) results ->
  0 <= sum_commits (firstn k results) <= sum_commits results.
Proof.
  intros Hnn. revert k. induction Hnn as [| x l Hx Hl IH]; intros k.
  - rewrite firstn_nil. cbn. lia.
  - destruct k as [| k]; cbn [firstn].
    + assert (0 <= sum_commits l) by (specialize (IH 0%nat); cbn in IH; lia).
      unfold sum_commits, sum_Z in *. cbn. lia.
    + specialize (IH k). unfold sum_commits, sum_Z in *. cbn. lia.
Qed.

Lemma removelast_snoc {A : Type} (l : list A) (x : A) : removelast (l ++ [x]) = l.
Proof.
  rewrite removelast_app by discriminate. cbn. apply app_nil_r.
Qed.

(** ** [top_committers] on a sample store *)

Example python_round_ties :
  python_round 0.5 = Ok 0 /\ python_round 1.5 = Ok 2 /\ python_round 2.5 = Ok 2 /\
  python_round (-2.5) = Ok (-2) /\ python_round infinity
  = Raise (OverflowError "cannot convert float infinity to integer").
Proof. repeat split; reflexivity. Qed.

Example threshold_commits_half : threshold_commits_of 0.5 8 = Ok 4.
Proof. reflexivity. Qed.

Example top_committers_half :
  top_committers store_5_3 store_5_3 2019 1 None None 0.5
  = Ok [row_a5; other_contributors 1 "g" 3].
Proof. reflexivity. Qed.

Example top_committers_all :
  top_committers store_5_3 store_5_3 2019 1 None None 1
  = Ok [row_a5; row_b3; other_contributors 1 "g" 0].
Proof. reflexivity. Qed.

Example top_committers_no_such_repo :
  top_committers store_5_3 store_5_3 2019 1 (Some 7) None 0.5
  = Raise (TypeError "int() argument must be a number, not 'NoneType'").
Proof. reflexivity. Qed.

(** ** Claims about [top_committers] *)

(** C1. For every threshold in [0, 1] and every scope and year whose
    committers table sums to the scope's total [T], every table returned by
    [top_committers] has commit counts, the synthetic row included, that sum
    to [T] exactly; and a table is returned whenever the committers table is
    not empty. *)
Theorem top_committers_counts_sum_to_total
        (db db' : store) (cy g : Z) (r year : option Z) (threshold : float)
        (T : Z) (results : list committer) :
  in_unit_interval threshold = true ->
  total_commits_SQL db (year_of cy year) g r = Ok (Some T) ->
  committers_SQL db' (year_of cy year) g r = Ok results ->
  sum_commits results = T ->
  (forall table, top_committers db db' cy g r year threshold = Ok table ->
                 sum_commits table = T) /\
  (results <> [] ->
   exists table, top_committers db db' cy g r year threshold = Ok table).
Proof.
  intros Hin Ht Hc _.
  pose proof (in_unit_interval_in_range threshold Hin) as Hr.
  pose proof (total_commits_SQL_int4 _ _ _ _ _ Ht) as Hint.
  destruct (threshold_commits_total threshold T Hin (int4_53 T Hint)) as [tc Htc].
  rewrite (top_committers_run db db' cy g r year threshold T tc results Hr Ht Htc Hc).
  destruct results as [| first rest].
  - split; [intros table E; discriminate E | intros H; congruence].
  - destruct (scan_and_annotate_spec T tc (first :: rest) g r) as
        (k & first' & _ & _ & -> & _); [discriminate |].
    split; [| intros _; eauto].
    intros table E. injection E as <-.
    rewrite sum_commits_app. unfold sum_commits at 2, sum_Z. cbn. lia.
Qed.

Lemma top_committers_counts_sum_to_total_witness :
  (forall table,
      top_committers store_5_3 store_5_3 2019 1 None None 0.5 = Ok table ->
      sum_commits table = 8) /\
  ([row_a5; row_b3] <> [] ->
   exists table, top_committers store_5_3 store_5_3 2019 1 None None 0.5 = Ok table).
Proof.
  apply (top_committers_counts_sum_to_total
           store_5_3 store_5_3 2019 1 None None 0.5 8 [row_a5; row_b3]);
    reflexivity.
Defined.

(** C2, as stated, fails: with threshold 0 the rounded threshold is 0, which
    the empty prefix already reaches, yet the scan keeps the first row. *)
Lemma top_committers_smallest_prefix_counterexample :
  in_unit_interval 0 = true /\
  total_commits_SQL store_5_3 2019 1 None = Ok (Some 8) /\
  threshold_commits_of 0 8 = Ok 0 /\
  committers_SQL store_5_3 2019 1 None = Ok [row_a5; row_b3] /\
  descending [row_a5; row_b3] = true /\
  top_committers store_5_3 store_5_3 2019 1 None None 0
  = Ok [row_a5; other_contributors 1 "g" 3] /\
  ~ smallest_prefix_reaching 0 [row_a5; row_b3]
      (removelast [row_a5; other_contributors 1 "g" 3]).
Proof.
  repeat (split; [reflexivity |]).
  intros (k & _ & Hp & _ & Hmin).
  destruct k as [| k]; [discriminate Hp |].
  specialize (Hmin 0%nat ltac:(lia)). cbn in Hmin. lia.
Qed.

(** C2, amended. For every threshold in [0, 1] and every non-empty
    committers table, [top_committers] returns a table whose rows before the
    synthetic row are the shortest non-empty prefix of the committers table
    whose cumulative commit count is at least [round(threshold * T)], or the
    whole table when no non-empty prefix reaches it. When the rounded
    threshold is positive and some prefix reaches it, this is the smallest
    prefix that reaches it, as the claim says. *)
Theorem top_committers_smallest_nonempty_prefix
        (db db' : store) (cy g : Z) (r year : option Z) (threshold : float)
        (T : Z) (results : list committer) :
  in_unit_interval threshold = true ->
  total_commits_SQL db (year_of cy year) g r = Ok (Some T) ->
  committers_SQL db' (year_of cy year) g r = Ok results ->
  results <> [] ->
  exists tc table,
    threshold_commits_of threshold T = Ok tc /\
    top_committers db db' cy g r year threshold = Ok table /\
    smallest_nonempty_prefix_reaching tc results (removelast table) /\
    (0 < tc ->
     (exists j : nat, tc <= sum_commits (firstn j results)) ->
     smallest_prefix_reaching tc results (removelast table)).
Proof.
  intros Hin Ht Hc Hne.
  pose proof (in_unit_interval_in_range threshold Hin) as Hr.
  pose proof (total_commits_SQL_int4 _ _ _ _ _ Ht) as Hint.
  destruct (threshold_commits_total threshold T Hin (int4_53 T Hint)) as [tc Htc].
  rewrite (top_committers_run db db' cy g r year threshold T tc results Hr Ht Htc Hc).
  destruct (scan_and_annotate_spec T tc results g r Hne) as
      (k & first & Hk & _ & -> & Hmin & Hreach).
  exists tc. eexists. split; [exact Htc |]. split; [reflexivity |].
  rewrite removelast_snoc. split; [exists k; now repeat split |].
  intros Hpos (j & Hj). exists k.
  split; [lia |]. split; [reflexivity |].
  assert (Hj1 : (1 <= j)%nat).
  { destruct j as [| j]; [| lia]. cbn in Hj. lia. }
  split.
  - destruct Hreach as [H | ->]; [exact H |].
    destruct (Nat.le_gt_cases (List.length results) j) as [Hle | Hgt].
    + rewrite firstn_all. now rewrite firstn_all2 in Hj.
    + specialize (Hmin j ltac:(lia)). lia.
  - intros i Hi. destruct i as [| i]; [cbn; lia |]. apply Hmin. lia.
Qed.

Lemma top_committers_smallest_nonempty_prefix_witness :
  exists tc table,
    threshold_commits_of 0.5 8 = Ok tc /\
    top_committers store_5_3 store_5_3 2019 1 None None 0.5 = Ok table /\
    smallest_nonempty_prefix_reaching tc [row_a5; row_b3] (removelast table) /\
    (0 < tc ->
     (exists j : nat, tc <= sum_commits (firstn j [row_a5; row_b3])) ->
     smallest_prefix_reaching tc [row_a5; row_b3] (removelast table)).
Proof.
  apply (top_committers_smallest_nonempty_prefix store_5_3 store_5_3 2019 1 None None 0.5 8);
    [reflexivity | reflexivity | reflexivity | discriminate].
Defined.

(** C3. [top_committers] raises its invalid-threshold error exactly when the
    threshold is below 0 or above 1, that is, for a threshold that is a
    number, exactly when it is not in [0, 1]: it raises for -0.1 and for
    1.1, and does not raise it for 0 or for 1, whatever the store and the
    other arguments. *)
Theorem top_committers_raises_iff_out_of_range
        (db db' : store) (cy g : Z) (r year : option Z) :
  top_committers db db' cy g r year (-0x1.999999999999ap-4) = Raise invalid_threshold /\
  top_committers db db' cy g r year 0x1.199999999999ap+0 = Raise invalid_threshold /\
  top_committers db db' cy g r year 0 <> Raise invalid_threshold /\
  top_committers db db' cy g r year 1 <> Raise invalid_threshold /\
  (forall threshold : float,
      top_committers db db' cy g r year threshold = Raise invalid_threshold <->
      (threshold <? 0)%float = true \/ (1 <? threshold)%float = true) /\
  (forall threshold : float,
      Prim2SF threshold <> S754_nan ->
      (top_committers db db' cy g r year threshold = Raise invalid_threshold <->
       in_unit_interval threshold = false)).
Proof.
  assert (Hiff : forall threshold : float,
             top_committers db db' cy g r year threshold = Raise invalid_threshold <->
             out_of_range threshold = true).
  { intros threshold. split.
    - intros E. destruct (out_of_range threshold) eqn:Hr; [reflexivity |].
      now apply top_committers_in_range in E.
    - apply top_committers_out_of_range. }
  split; [now apply top_committers_out_of_range |].
  split; [now apply top_committers_out_of_range |].
  split; [now apply top_committers_in_range |].
  split; [now apply top_committers_in_range |].
  split.
  - intros threshold. rewrite Hiff. unfold out_of_range. apply orb_true_iff.
  - intros threshold Hnan. rewrite Hiff, (out_of_range_spec threshold Hnan).
    apply negb_true_iff.
Qed.

(** C4, as stated, fails for threshold 0: the scan keeps the first
    contributor, so the table is not just the synthetic row with the total
    8. *)
Lemma top_committers_threshold_0_counterexample :
  total_commits_SQL store_5_3 2019 1 None = Ok (Some 8) /\
  committers_SQL store_5_3 2019 1 None = Ok [row_a5; row_b3] /\
  sum_commits [row_a5; row_b3] = 8 /\
  top_committers store_5_3 store_5_3 2019 1 None None 0
  = Ok [row_a5; other_contributors 1 "g" 3] /\
  ~ (exists id name,
        top_committers store_5_3 store_5_3 2019 1 None None 0
        = Ok [other_contributors id name 8]).
Proof.
  repeat (split; [reflexivity |]).
  intros (id & name & E). discriminate E.
Qed.

(** C4, amended. For every non-empty committers table with non-negative
    commit counts that sum to the total [T]: with threshold 0 the table
    returned is the first contributor's row followed by the synthetic row
    with commit count [T] minus that contributor's count; with threshold 1
    the table returned ends with the synthetic row with commit count 0. *)
Theorem top_committers_threshold_0_and_1
        (db db' : store) (cy g : Z) (r year : option Z)
        (T : Z) (results : list committer) (first : committer) :
  total_commits_SQL db (year_of cy year) g r = Ok (Some T) ->
  committers_SQL db' (year_of cy year) g r = Ok results ->
  nth_error results 0 = Some first ->
  Forall (fun row => 0 <= commits row) results ->
  sum_commits results = T ->
  top_committers db db' cy g r year 0
  = Ok [first; other_contributors (scope_of g r) (scope_name first) (T - commits first)] /\
  exists k : nat,
    (1 <= k <= List.length results)%nat /\
    top_committers db db' cy g r year 1
    = Ok (firstn k results ++ [other_contributors (scope_of g r) (scope_name first) 0]).
Proof.
  intros Ht Hc Hfirst Hnn Hsum.
  pose proof (total_commits_SQL_int4 _ _ _ _ _ Ht) as Hint.
  assert (Hne : results <> []) by (intros ->; discriminate Hfirst).
  split.
  - rewrite (top_committers_run db db' cy g r year 0 T 0 results
               eq_refl Ht (threshold_commits_zero T (int4_53 T Hint)) Hc).
    destruct (scan_and_annotate_spec T 0 results g r Hne) as
        (k & first' & Hk & Hf' & -> & Hmin & _).
    rewrite Hfirst in Hf'. injection Hf' as <-.
    destruct results as [| x rest]; [congruence |].
    cbn in Hfirst. injection Hfirst as ->.
    assert (k = 1%nat) as ->.
    { destruct k as [| [| k]]; [lia | reflexivity | exfalso].
      specialize (Hmin 1%nat ltac:(lia)).
      apply Forall_inv in Hnn. unfold sum_commits, sum_Z in Hmin. cbn in Hmin. lia. }
    cbn [firstn app]. unfold sum_commits, sum_Z. cbn. now rewrite Z.add_0_r.
  - rewrite (top_committers_run db db' cy g r year 1 T T results
               eq_refl Ht (threshold_commits_one T (int4_53 T Hint)) Hc).
    destruct (scan_and_annotate_spec T T results g r Hne) as
        (k & first' & Hk & Hf' & -> & _ & Hreach).
    rewrite Hfirst in Hf'. injection Hf' as <-.
    exists k. split; [exact Hk |].
    pose proof (sum_commits_firstn_le k results Hnn) as Hle.
    assert (Hk' : sum_commits (firstn k results) = T).
    { destruct Hreach as [H | ->]; [lia | now rewrite firstn_all]. }
    now rewrite Hk', Z.sub_diag.
Qed.

Lemma top_committers_threshold_0_and_1_witness :
  top_committers store_5_3 store_5_3 2019 1 None None 0
  = Ok [row_a5; other_contributors (scope_of 1 None) (scope_name row_a5) (8 - commits row_a5)] /\
  exists k : nat,
    (1 <= k <= List.length [row_a5; row_b3])%nat /\
    top_committers store_5_3 store_5_3 2019 1 None None 1
    = Ok (firstn k [row_a5; row_b3]
          ++ [other_contributors (scope_of 1 None) (scope_name row_a5) 0]).
Proof.
  apply (top_committers_threshold_0_and_1 store_5_3 store_5_3 2019 1 None None 8
                                           [row_a5; row_b3] row_a5);
    try reflexivity.
  repeat constructor; cbn; lia.
Defined.

(** C8. When the rollup has no row for the requested scope and year,
    [top_committers] with a threshold in [0, 1] returns no table: the total
    is NULL and [int()] raises before the scan; the committers table is
    empty, the loop body never runs on it ([i] stays unbound, the running
    sum stays 0), and the first-row lookup for the synthetic row fails. *)
Theorem top_committers_empty_scope_fails
        (db db' : store) (cy g : Z) (r year : option Z) (threshold : float) :
  in_unit_interval threshold = true ->
  rollup_empty db (year_of cy year) g r ->
  top_committers db db' cy g r year threshold
  = Raise (TypeError "int() argument must be a number, not 'NoneType'") /\
  committers_SQL db (year_of cy year) g r = Ok [] /\
  (forall tc, scan tc [] = {| st_i := None; st_cumsum := 0; st_results := [] |}) /\
  (forall T tc, scan_and_annotate T tc [] g r
                = Raise (IndexError "single positional indexer is out-of-bounds")).
Proof.
  intros Hin Hempty.
  pose proof (in_unit_interval_in_range threshold Hin) as Hr.
  unfold rollup_empty in Hempty.
  assert (Ht : total_commits_SQL db (year_of cy year) g r = Ok None).
  { unfold total_commits_SQL. destruct (negb (truthy r)); now rewrite Hempty. }
  assert (Hc : committers_SQL db (year_of cy year) g r = Ok []).
  { unfold committers_SQL. destruct (negb (truthy r)); now rewrite Hempty. }
  split; [| split; [exact Hc | split; reflexivity]].
  unfold top_committers, check_threshold. rewrite Hr. cbn [bind].
  rewrite Ht. reflexivity.
Qed.

Lemma top_committers_empty_scope_fails_witness :
  top_committers store_5_3 store_5_3 2019 1 None (Some 2020) 0.5
  = Raise (TypeError "int() argument must be a number, not 'NoneType'") /\
  committers_SQL store_5_3 (year_of 2019 (Some 2020)) 1 None = Ok [] /\
  (forall tc, scan tc [] = {| st_i := None; st_cumsum := 0; st_results := [] |}) /\
  (forall T tc, scan_and_annotate T tc [] 1 None
                = Raise (IndexError "single positional indexer is out-of-bounds")).
Proof.
  apply (top_committers_empty_scope_fails store_5_3 store_5_3 2019 1 None (Some 2020) 0.5);
    reflexivity.
Defined.

(** C9. For every non-empty committers table with non-negative commit
    counts whose sum over all rows is strictly less than
    [round(threshold * total_commits)], [top_committers] returns every row,
    untruncated, followed by the synthetic row whose commit count is
    [total_commits] minus the sum of all rows. *)
Theorem top_committers_threshold_not_reached
        (db db' : store) (cy g : Z) (r year : option Z) (threshold : float)
        (T tc : Z) (results : list committer) (first : committer) :
  in_unit_interval threshold = true ->
  total_commits_SQL db (year_of cy year) g r = Ok (Some T) ->
  threshold_commits_of threshold T = Ok tc ->
  committers_SQL db' (year_of cy year) g r = Ok results ->
  nth_error results 0 = Some first ->
  Forall (fun row => 0 <= commits row) results ->
  sum_commits results < tc ->
  top_committers db db' cy g r year threshold
  = Ok (results ++ [other_contributors (scope_of g r) (scope_name first)
                                        (T - sum_commits results)]).
Proof.
  intros Hin Ht Htc Hc Hfirst Hnn Hlt.
  pose proof (in_unit_interval_in_range threshold Hin) as Hr.
  assert (Hne : results <> []) by (intros ->; discriminate Hfirst).
  rewrite (top_committers_run db db' cy g r year threshold T tc results Hr Ht Htc Hc).
  destruct (scan_and_annotate_spec T tc results g r Hne) as
      (k & first' & Hk & Hf' & -> & _ & Hreach).
  rewrite Hfirst in Hf'. injection Hf' as <-.
  pose proof (sum_commits_firstn_le k results Hnn) as Hle.
  destruct Hreach as [H | ->]; [lia |].
  now rewrite firstn_all.
Qed.

Lemma top_committers_threshold_not_reached_witness :
  top_committers store_10 store_5_3 2019 1 None None 1
  = Ok ([row_a5; row_b3] ++ [other_contributors (scope_of 1 None) (scope_name row_a5)
                                                 (10 - sum_commits [row_a5; row_b3])]).
Proof.
  apply (top_committers_threshold_not_reached store_10 store_5_3 2019 1 None None 1
                                               10 10 [row_a5; row_b3] row_a5);
    try reflexivity.
  repeat constructor; cbn; lia.
Defined.

(** ** Relational lemmas *)

Lemma filter_none {A : Type} (f : A -> bool) (l : list A) :
  (forall a, In a l -> f a = false) -> filter f l = [].
Proof.
  induction l as [| x l IH]; intros H; cbn; [reflexivity |].
  rewrite (H x) by now left. apply IH. intros a Ha. apply H. now right.
Qed.

Lemma filter_singleton {A : Type} (f : A -> bool) (l : list A) (s : A) :
  NoDup l -> In s l -> f s = true ->
  (forall a, In a l -> f a = true -> a = s) ->
  filter f l = [s].
Proof.
  induction l as [| x l IH]; intros Hnd Hin Hs Huniq; [contradiction |].
  apply NoDup_cons_iff in Hnd. destruct Hnd as [Hx Hnd].
  assert (Hrest : forall a, In a l -> a <> s -> f a = false).
  { intros a Ha Hne. destruct (f a) eqn:Hfa; [| reflexivity].
    exfalso. apply Hne. apply Huniq; [now right | exact Hfa]. }
  cbn [filter]. destruct Hin as [-> | Hin].
  - rewrite Hs. f_equal.
    apply filter_none. intros a Ha. apply Hrest; [exact Ha | intros ->; contradiction].
  - assert (x <> s) by (intros ->; contradiction).
    destruct (f x) eqn:Hfx.
    + exfalso. apply H. apply Huniq; [now left | exact Hfx].
    + apply IH; auto. intros a Ha. apply Huniq. now right.
Qed.

Lemma NoDup_map_eq {A B : Type} (f : A -> B) (l : list A) (a b : A) :
  NoDup (map f l) -> In a l -> In b l -> f a = f b -> a = b.
Proof.
  induction l as [| x l IH]; intros Hnd Ha Hb Hf; [contradiction |].
  cbn [map] in Hnd. apply NoDup_cons_iff in Hnd. destruct Hnd as [Hx Hnd].
  destruct Ha as [-> | Ha], Hb as [-> | Hb]; auto.
  - exfalso. apply Hx. rewrite Hf. now apply in_map.
  - exfalso. apply Hx. rewrite <- Hf. now apply in_map.
Qed.

Lemma filter_flat_map {A B : Type} (f : B -> bool) (g : A -> list B) (l : list A) :
  filter f (flat_map g l) = flat_map (fun x => filter f (g x)) l.
Proof.
  induction l as [| x l IH]; cbn; [reflexivity |].
  now rewrite filter_app, IH.
Qed.

Lemma filter_map_swap {A B : Type} (f : B -> bool) (g : A -> B) (l : list A) :
  filter f (map g l) = map g (filter (fun x => f (g x)) l).
Proof.
  induction l as [| x l IH]; cbn; [reflexivity |].
  destruct (f (g x)); cbn; now rewrite IH.
Qed.

Lemma insert_by_perm {A : Type} (leb : A -> A -> bool) (x : A) (l : list A) :
  Permutation (insert_by leb x l) (x :: l).
Proof.
  induction l as [| y l IH]; cbn [insert_by]; [reflexivity |].
  destruct (leb x y); [reflexivity |].
  rewrite IH. apply perm_swap.
Qed.

Lemma order_by_perm {A : Type} (leb : A -> A -> bool) (l : list A) :
  Permutation (order_by leb l) l.
Proof.
  induction l as [| x l IH]; cbn; [reflexivity |].
  fold (order_by leb l). rewrite insert_by_perm. now constructor.
Qed.

(** The first row of an [ORDER BY] precedes every row, for a total and
    transitive order. *)
Lemma insert_by_head {A : Type} (leb : A -> A -> bool) (x h : A) (l t : list A) :
  (forall a b, leb a b = false -> leb b a = true) ->
  (forall a b c, leb a b = true -> leb b c = true -> leb a c = true) ->
  (forall h' t', l = h' :: t' -> forall y, In y l -> leb h' y = true) ->
  insert_by leb x l = h :: t ->
  forall y, In y (x :: l) -> leb h y = true.
Proof.
  intros Htot Htrans Hl.
  assert (Hrefl : forall a, leb a a = true).
  { intros a. destruct (leb a a) eqn:E; [reflexivity |].
    pose proof (Htot a a E). congruence. }
  destruct l as [| h' t']; cbn [insert_by].
  - intros E y Hy. injection E as <- <-. destruct Hy as [<- | []]. apply Hrefl.
  - specialize (Hl h' t' eq_refl).
    destruct (leb x h') eqn:Hx; intros E y Hy; injection E as <- _.
    + destruct Hy as [<- | Hy]; [apply Hrefl |].
      apply (Htrans _ h'); [exact Hx | now apply Hl].
    + destruct Hy as [<- | Hy]; [now apply Htot | now apply Hl].
Qed.

Lemma order_by_head {A : Type} (leb : A -> A -> bool) (l : list A) (h : A) (t : list A) :
  (forall a b, leb a b = false -> leb b a = true) ->
  (forall a b c, leb a b = true -> leb b c = true -> leb a c = true) ->
  order_by leb l = h :: t ->
  forall y, In y l -> leb h y = true.
Proof.
  intros Htot Htrans. revert h t.
  induction l as [| x l IH]; intros h t E y Hy; [contradiction |].
  cbn in E. fold (order_by leb l) in E.
  assert (Hin : forall z, In z (x :: order_by leb l) -> leb h z = true).
  { apply (insert_by_head leb x h (order_by leb l) t Htot Htrans); [| exact E].
    intros h' t' E' z Hz. apply (IH h' t' E').
    apply (Permutation_in _ (order_by_perm leb l)). exact Hz. }
  apply Hin. destruct Hy as [<- | Hy]; [now left | right].
  apply (Permutation_in _ (Permutation_sym (order_by_perm leb l))). exact Hy.
Qed.

Lemma exists_latest (l : list repo_info_row) :
  l <> [] ->
  exists s, In s l /\
            forall s', In s' l -> data_collection_date s' <= data_collection_date s.
Proof.
  induction l as [| x l IH]; [congruence |]. intros _.
  destruct l as [| y l].
  - exists x. split; [now left |]. intros s' [<- | []]. lia.
  - destruct IH as (s & Hs & Hmax); [discriminate |].
    destruct (Z_le_gt_dec (data_collection_date x) (data_collection_date s)).
    + exists s. split; [now right |]. intros s' [<- | H]; [lia | now apply Hmax].
    + exists x. split; [now left |]. intros s' [<- | H]; [lia |].
      specialize (Hmax s' H). lia.
Qed.

Lemma flat_map_if {A B : Type} (f : A -> bool) (g : A -> list B) (l : list A) :
  flat_map (fun a => if f a then g a else []) l = flat_map g (filter f l).
Proof.
  induction l as [| x l IH]; cbn; [reflexivity |].
  destruct (f x); cbn; now rewrite IH.
Qed.

Lemma filter_all {A : Type} (l : list A) : filter (fun _ => true) l = l.
Proof.
  induction l as [| x l IH]; cbn; [reflexivity | now rewrite IH].
Qed.

Lemma filter_and {A : Type} (f g : A -> bool) (l : list A) :
  filter f (filter g l) = filter (fun x => g x && f x) l.
Proof.
  induction l as [| x l IH]; cbn; [reflexivity |].
  destruct (g x); cbn; [destruct (f x) |]; now rewrite IH.
Qed.

(** ** Snapshot metrics *)

Example fork_count_group :
  fork_count store_snapshots 1 None
  = {| columns := ["repo_id"; "repo_name"; "forks"]%string;
       rows := [[Int 7; Str "augur"; Int 5]] |}.
Proof. reflexivity. Qed.

Example stars_count_single :
  stars_count store_snapshots 1 (Some 7)
  = {| columns := ["repo_name"; "stars"]%string; rows := [[Str "augur"; Int 50]] |}.
Proof. reflexivity. Qed.

(** With [repo_id] a key of [repo], a repo is the one row of its id. *)
Lemma repo_row_of_key (db : store) (p : Z) (rp : repo_row) :
  NoDup (map r_repo_id (db_repo db)) -> In rp (db_repo db) -> r_repo_id rp = p ->
  filter (fun r => p =? r_repo_id r) (db_repo db) = [rp].
Proof.
  intros repo_key rp_in rp_id. apply filter_singleton.
  - now apply NoDup_map_inv in repo_key.
  - exact rp_in.
  - apply Z.eqb_eq. now rewrite rp_id.
  - intros a Ha Hp. apply Z.eqb_eq in Hp.
    apply (NoDup_map_eq r_repo_id (db_repo db)); auto. congruence.
Qed.

Section LatestCount.

Variable m : snapshot_metric.
Variable db : store.
Variables g p : Z.
Variable rp : repo_row.
Variable s : repo_info_row.

Hypothesis p_truthy : p <> 0.
Hypothesis repo_of_p : filter (fun r => p =? r_repo_id r) (db_repo db) = [rp].
Hypothesis rp_group : r_repo_group_id rp = g.
Hypothesis info_key : NoDup (map repo_info_id (db_repo_info db)).
Hypothesis monotone : ids_follow_dates db p.
Hypothesis s_in : In s (snapshots_of db p).
Hypothesis s_latest :
  forall s', In s' (snapshots_of db p) ->
             data_collection_date s' <= data_collection_date s.

Lemma snapshot_in (a : repo_info_row) :
  In a (snapshots_of db p) <-> In a (db_repo_info db) /\ ri_repo_id a = p.
Proof.
  unfold snapshots_of. rewrite filter_In, Z.eqb_eq. reflexivity.
Qed.

(** A snapshot of [p] taken at the date of [s] is [s]. *)
Lemma same_date_same_snapshot (a : repo_info_row) :
  In a (snapshots_of db p) ->
  data_collection_date s <= data_collection_date a -> a = s.
Proof.
  intros Ha Hd. pose proof (s_latest a Ha) as Hle.
  apply (NoDup_map_eq repo_info_id (db_repo_info db)); auto.
  - now apply snapshot_in in Ha.
  - now apply snapshot_in in s_in.
  - destruct (Z.lt_trichotomy (repo_info_id a) (repo_info_id s)) as [H | [H | H]].
    + pose proof (monotone a s Ha s_in H). lia.
    + exact H.
    + pose proof (monotone s a s_in Ha H). lia.
Qed.

Lemma rp_listed : In rp (db_repo db) /\ r_repo_id rp = p.
Proof.
  assert (H : In rp (filter (fun r => p =? r_repo_id r) (db_repo db)))
    by (rewrite repo_of_p; now left).
  apply filter_In in H. destruct H as [Hin Hid]. apply Z.eqb_eq in Hid. now split.
Qed.

Lemma p_in_group : in_repo_group db g p = true.
Proof.
  destruct rp_listed as [rp_in rp_id].
  unfold in_repo_group. apply existsb_exists. exists rp. split; [exact rp_in |].
  apply andb_true_intro. split; apply Z.eqb_eq; assumption.
Qed.

(** The anti-join keeps, of the snapshots of [p], exactly [s]. *)
Lemma anti_join_keeps_latest :
  filter (fun a => negb (existsb (newer_snapshot a) (db_repo_info db))
                   && (ri_repo_id a =? p))
         (db_repo_info db) = [s].
Proof.
  pose proof (proj1 (snapshot_in s) s_in) as [Hs_in Hs_p].
  apply filter_singleton.
  - now apply NoDup_map_inv in info_key.
  - exact Hs_in.
  - apply andb_true_intro. split; [| now apply Z.eqb_eq].
    apply negb_true_iff. apply not_true_is_false. intros H.
    apply existsb_exists in H. destruct H as (b & Hb & Hnew).
    unfold newer_snapshot in Hnew. apply andb_prop in Hnew.
    destruct Hnew as [Hrepo Hid]. apply Z.eqb_eq in Hrepo. apply Z.ltb_lt in Hid.
    assert (Hb' : In b (snapshots_of db p)) by (apply snapshot_in; split; congruence).
    pose proof (monotone s b s_in Hb' Hid). pose proof (s_latest b Hb'). lia.
  - intros a Ha Hkeep. apply andb_prop in Hkeep. destruct Hkeep as [Hnone Hp].
    apply Z.eqb_eq in Hp. apply negb_true_iff in Hnone.
    assert (Ha' : In a (snapshots_of db p)) by (apply snapshot_in; now split).
    apply same_date_same_snapshot; [exact Ha' |].
    destruct (Z_le_gt_dec (data_collection_date s) (data_collection_date a)) as [H | H];
      [exact H | exfalso].
    assert (Hid : repo_info_id a < repo_info_id s).
    { destruct (Z.lt_trichotomy (repo_info_id a) (repo_info_id s)) as [H' | [H' | H']].
      - exact H'.
      - assert (a = s) by (apply (NoDup_map_eq repo_info_id (db_repo_info db)); auto).
        subst a. lia.
      - pose proof (monotone s a s_in Ha' H'). lia. }
    assert (Hex : existsb (newer_snapshot a) (db_repo_info db) = true).
    { apply existsb_exists. exists s. split; [exact Hs_in |].
      unfold newer_snapshot. apply andb_true_intro.
      split; [apply Z.eqb_eq; congruence | now apply Z.ltb_lt]. }
    congruence.
Qed.

Lemma latest_count_group_of_p :
  filter (fun '(i, _, _) => i =? p) (latest_count_group m db g)
  = [(p, r_repo_name rp, count_of m s)].
Proof.
  pose proof (proj1 (snapshot_in s) s_in) as [_ Hs_p].
  unfold latest_count_group. rewrite filter_flat_map.
  rewrite (flat_map_ext _
             (fun a => if ri_repo_id a =? p
                       then map (fun r => (ri_repo_id a, r_repo_name r, count_of m a))
                                (filter (fun r => (ri_repo_id a =? r_repo_id r)
                                                  && in_repo_group db g (ri_repo_id a))
                                        (db_repo db))
                       else [])).
  - rewrite flat_map_if, filter_and, anti_join_keeps_latest.
    cbn [flat_map]. rewrite app_nil_r, Hs_p.
    rewrite (filter_ext _ (fun r => p =? r_repo_id r)).
    + now rewrite repo_of_p.
    + intros r. now rewrite p_in_group, andb_true_r.
  - intros a. rewrite filter_map_swap. cbn beta iota.
    destruct (ri_repo_id a =? p).
    + now rewrite filter_all.
    + now rewrite filter_none.
Qed.

Lemma latest_count_single_of_p :
  latest_count_single m db p = [(r_repo_name rp, count_of m s)].
Proof.
  pose proof (proj1 (snapshot_in s) s_in) as [Hs_in Hs_p].
  unfold latest_count_single.
  set (joined := filter _ (flat_map _ (db_repo_info db))).
  assert (Hjoined : forall i r, In (i, r) joined <-> In i (snapshots_of db p) /\ r = rp).
  { intros i r. unfold joined. rewrite filter_In, in_flat_map. split.
    - intros [(i' & Hi' & Hin) Hp]. apply Z.eqb_eq in Hp.
      apply in_map_iff in Hin. destruct Hin as (r' & E & Hr').
      injection E as -> ->. rewrite Hp, repo_of_p in Hr'.
      destruct Hr' as [<- | []]. split; [apply snapshot_in; now split | reflexivity].
    - intros [Hi ->]. apply snapshot_in in Hi. destruct Hi as [Hi Hp].
      split; [| now apply Z.eqb_eq]. exists i. split; [exact Hi |].
      apply in_map. rewrite Hp, repo_of_p. now left. }
  set (leb := fun x y : repo_info_row * repo_row =>
                data_collection_date (fst y) <=? data_collection_date (fst x)).
  pose proof (order_by_perm leb joined) as Hperm.
  destruct (order_by leb joined) as [| h t] eqn:Hsorted.
  - exfalso. apply Permutation_nil in Hperm.
    assert (Hin : In (s, rp) joined) by (now apply Hjoined).
    rewrite Hperm in Hin. contradiction.
  - assert (Hh : In h joined).
    { apply (Permutation_in _ Hperm). now left. }
    destruct h as [i r]. apply Hjoined in Hh. destruct Hh as [Hi ->].
    assert (Hmax : leb (i, rp) (s, rp) = true).
    { apply (order_by_head leb joined (i, rp) t); [| | exact Hsorted | now apply Hjoined].
      - intros a b H. unfold leb in *. apply Z.leb_gt in H. apply Z.leb_le. lia.
      - intros a b c H1 H2. unfold leb in *.
        apply Z.leb_le in H1, H2. apply Z.leb_le. lia. }
    unfold leb in Hmax. cbn [fst] in Hmax. apply Z.leb_le in Hmax.
    rewrite (same_date_same_snapshot i Hi Hmax). reflexivity.
Qed.

Lemma latest_count_spec :
  rows (restrict_to "repo_id" (Int p) (latest_count m db g None))
  = [[Int p; Str (r_repo_name rp); Int (count_of m s)]] /\
  rows (latest_count m db g (Some p))
  = [[Str (r_repo_name rp); Int (count_of m s)]].
Proof.
  split.
  - unfold latest_count, restrict_to. cbn [truthy negb rows columns].
    rewrite filter_map_swap.
    rewrite (filter_ext _ (fun '(i, _, _) => i =? p)).
    + now rewrite latest_count_group_of_p.
    + intros [[i n] c]. reflexivity.
  - unfold latest_count. cbn [truthy param].
    replace (p =? 0) with false by (symmetry; now apply Z.eqb_neq).
    cbn [negb rows]. now rewrite latest_count_single_of_p.
Qed.

End LatestCount.

Lemma current_count_eq (m : snapshot_metric) : current_count m = latest_count m.
Proof. now destruct m. Qed.

Lemma snapshots_of_perm (db : store) (info' : list repo_info_row) (p : Z)
      (a : repo_info_row) :
  Permutation (db_repo_info db) info' ->
  In a (snapshots_of (with_repo_info db info') p) <-> In a (snapshots_of db p).
Proof.
  intros Hperm. unfold snapshots_of. cbn [with_repo_info db_repo_info].
  rewrite !filter_In. split; intros [Hin Hp]; split; auto.
  - apply (Permutation_in _ (Permutation_sym Hperm)). exact Hin.
  - apply (Permutation_in _ Hperm). exact Hin.
Qed.

(** C5. For a project [p] of group [g] with at least one snapshot in
    [repo_info], when snapshot ids grow with the collection date, each of
    [fork_count], [stars_count] and [watchers_count] returns, in the
    group-scoped variant (anti-join on the snapshot id) restricted to [p] and
    in the single-project variant (latest date), the count of the snapshot
    with the latest collection date, in whatever order the snapshot rows are
    stored. *)
Theorem current_count_is_latest_snapshot
        (m : snapshot_metric) (db : store) (g p : Z) (rp : repo_row)
        (info' : list repo_info_row) :
  p <> 0 ->
  NoDup (map r_repo_id (db_repo db)) ->
  In rp (db_repo db) -> r_repo_id rp = p -> r_repo_group_id rp = g ->
  NoDup (map repo_info_id (db_repo_info db)) ->
  ids_follow_dates db p ->
  snapshots_of db p <> [] ->
  Permutation (db_repo_info db) info' ->
  exists s,
    In s (snapshots_of db p) /\
    (forall s', In s' (snapshots_of db p) ->
                data_collection_date s' <= data_collection_date s) /\
    rows (restrict_to "repo_id" (Int p)
            (current_count m (with_repo_info db info') g None))
    = [[Int p; Str (r_repo_name rp); Int (count_of m s)]] /\
    rows (current_count m (with_repo_info db info') g (Some p))
    = [[Str (r_repo_name rp); Int (count_of m s)]].
Proof.
  intros Hp Hrepo Hrp Hid Hgroup Hinfo Hmono Hne Hperm.
  destruct (exists_latest (snapshots_of db p) Hne) as (s & Hs & Hmax).
  exists s. split; [exact Hs |]. split; [exact Hmax |].
  rewrite current_count_eq.
  apply (latest_count_spec m (with_repo_info db info') g p rp s); auto.
  - cbn [with_repo_info db_repo]. now apply repo_row_of_key.
  - cbn [with_repo_info db_repo_info].
    apply (Permutation_NoDup (Permutation_map repo_info_id Hperm)). exact Hinfo.
  - intros a b Ha Hb. apply (snapshots_of_perm db info' p _ Hperm) in Ha, Hb.
    now apply Hmono.
  - now apply (snapshots_of_perm db info' p _ Hperm).
  - intros s' Hs'. apply (snapshots_of_perm db info' p _ Hperm) in Hs'.
    now apply Hmax.
Qed.

Lemma current_count_is_latest_snapshot_witness :
  exists s,
    In s (snapshots_of store_snapshots 7) /\
    (forall s', In s' (snapshots_of store_snapshots 7) ->
                data_collection_date s' <= data_collection_date s) /\
    rows (restrict_to "repo_id" (Int 7)
            (current_count Forks
               (with_repo_info store_snapshots (rev (db_repo_info store_snapshots)))
               1 None))
    = [[Int 7; Str (r_repo_name repo_augur); Int (count_of Forks s)]] /\
    rows (current_count Forks
            (with_repo_info store_snapshots (rev (db_repo_info store_snapshots)))
            1 (Some 7))
    = [[Str (r_repo_name repo_augur); Int (count_of Forks s)]].
Proof.
  apply (current_count_is_latest_snapshot Forks store_snapshots 1 7 repo_augur
           (rev (db_repo_info store_snapshots))).
  - discriminate.
  - cbn. constructor; [intros [] | constructor].
  - now left.
  - reflexivity.
  - reflexivity.
  - cbn. repeat (constructor; [cbn; intuition discriminate |]). constructor.
  - intros a b Ha Hb. cbn in Ha, Hb.
    destruct Ha as [<- | [<- | [<- | []]]], Hb as [<- | [<- | [<- | []]]]; cbn; lia.
  - discriminate.
  - apply Permutation_rev.
Defined.

(** The frames of the snapshot metrics carry the catalog's columns. *)
Lemma current_count_columns (db : store) (g : Z) (r : option Z) :
  columns (fork_count db g r) = result_columns M_fork_count r /\
  columns (stars_count db g r) = result_columns M_stars_count r /\
  columns (watchers_count db g r) = result_columns M_watchers_count r.
Proof.
  unfold fork_count, stars_count, watchers_count, latest_count, result_columns, variant_of.
  now destruct (negb (truthy r)).
Qed.

Lemma code_changes_columns (date_trunc : string -> Z -> Z) (db : store) (now g : Z)
      (r : option Z) (period : string) (b e : option Z) :
  columns (code_changes date_trunc db now g r period b e) = result_columns M_code_changes r.
Proof.
  unfold code_changes, result_columns, variant_of. now destruct (negb (truthy r)).
Qed.

(** ** The catalog *)

Lemma has_column_In (name : string) (cols : list string) :
  has_column name cols = true <-> In name cols.
Proof.
  unfold has_column. rewrite existsb_exists. split.
  - intros (c & Hc & E). apply String.eqb_eq in E. now subst.
  - intros H. exists name. split; [exact H | apply String.eqb_refl].
Qed.

Lemma drops_repo_id_spec (m : metric) :
  drops_repo_id m = true <->
  In "repo_id"%string (group_columns m) /\ ~ In "repo_id"%string (single_columns m).
Proof.
  unfold drops_repo_id. rewrite andb_true_iff, negb_true_iff, <- has_column_In.
  split; intros [H1 H2]; split; auto.
  - rewrite <- has_column_In. congruence.
  - rewrite <- has_column_In in H2. now destruct (has_column _ (single_columns m)).
Qed.

(** C6, as stated, fails: the single-project variant of [issues_open_age]
    selects [repo_id], as its group-scoped variant does. *)
Lemma single_project_keeps_repo_id_counterexample :
  result_columns M_issues_open_age (Some 7)
  = ["repo_id"; "repo_name"; "issue_id"; "date"; "open_date"]%string /\
  result_columns M_issues_open_age None = result_columns M_issues_open_age (Some 7) /\
  ~ (In "repo_id"%string (result_columns M_issues_open_age None) /\
     ~ In "repo_id"%string (result_columns M_issues_open_age (Some 7))).
Proof.
  split; [reflexivity |]. split; [reflexivity |].
  intros [_ H]. apply H. now left.
Qed.

(** C6, amended. For every catalog metric that accepts [repo_id], the query
    variant is selected by the truth value of [repo_id]: the group-scoped
    columns are returned when it is falsy, the single-project columns
    otherwise. The single-project variant omits the [repo_id] column that
    the group-scoped variant includes for exactly the 22 metrics of
    [repo_id_dropping_metrics]; 10 metrics select the same columns in both
    variants, and the remaining 5 select other or more columns in the
    single-project variant: each of them has a single-project column that
    its group-scoped variant does not select. *)
Theorem variant_selection_and_columns (m : metric) :
  (forall repo_id : option Z,
      result_columns m repo_id
      = if negb (truthy repo_id) then group_columns m else single_columns m) /\
  (In "repo_id"%string (group_columns m) /\ ~ In "repo_id"%string (single_columns m)
   <-> In m repo_id_dropping_metrics) /\
  (In m same_columns_metrics -> group_columns m = single_columns m) /\
  (In m repo_id_dropping_metrics \/ In m same_columns_metrics \/ In m other_shape_metrics) /\
  (In m other_shape_metrics ->
   group_columns m <> single_columns m /\
   exists name, In name (single_columns m) /\ ~ In name (group_columns m)).
Proof.
  split.
  { intros repo_id. unfold result_columns, variant_of. now destruct (negb (truthy repo_id)). }
  split.
  { rewrite <- drops_repo_id_spec.
    destruct m; (split; [intros H; first [discriminate H | cbn; tauto]
                        | intros H; first [reflexivity
                                          | exfalso; cbn in H; intuition discriminate]]). }
  split.
  { destruct m; intros H; first [reflexivity | exfalso; cbn in H; intuition discriminate]. }
  split.
  { destruct m; cbn; tauto. }
  intros H. split.
  { destruct m; first [discriminate | exfalso; cbn in H; intuition discriminate]. }
  assert (Hnew : exists name, has_column name (single_columns m) = true /\
                              has_column name (group_columns m) = false).
  { destruct m; try (exfalso; cbn in H; intuition discriminate).
    - exists "repo_name"%string. split; reflexivity.
    - exists "repo_id"%string. split; reflexivity.
    - exists "repo_id"%string. split; reflexivity.
    - exists "repo_id"%string. split; reflexivity.
    - exists "repo_name"%string. split; reflexivity. }
  destruct Hnew as (name & H1 & H2). exists name. split.
  - now apply has_column_In.
  - rewrite <- has_column_In. now rewrite H2.
Qed.

(** ** [GROUP BY] and [ORDER BY] under a filter *)

Lemma filter_comm {A : Type} (f g : A -> bool) (l : list A) :
  filter f (filter g l) = filter g (filter f l).
Proof.
  rewrite !filter_and. apply filter_ext. intros x. apply andb_comm.
Qed.

Lemma filter_distinct {K : Type} (eqb : K -> K -> bool) (f : K -> bool) (l : list K) :
  (forall k k', eqb k k' = true -> f k = f k') ->
  filter f (distinct eqb l) = distinct eqb (filter f l).
Proof.
  intros Hf. induction l as [| k l IH]; [reflexivity |].
  cbn [distinct filter]. destruct (f k) eqn:Hk.
  - cbn [distinct]. now rewrite filter_comm, IH.
  - rewrite <- IH, filter_and. apply filter_ext. intros x.
    destruct (eqb k x) eqn:E; [| reflexivity].
    cbn. rewrite <- (Hf k x E). now rewrite Hk.
Qed.

Lemma distinct_map {K K' : Type} (eqb : K -> K -> bool) (eqb' : K' -> K' -> bool)
      (h : K -> K') (l : list K) :
  (forall a b, eqb' (h a) (h b) = eqb a b) ->
  distinct eqb' (map h l) = map h (distinct eqb l).
Proof.
  intros Hh. induction l as [| k l IH]; [reflexivity |].
  cbn [map distinct]. rewrite IH, filter_map_swap. f_equal. f_equal.
  apply filter_ext. intros x. now rewrite Hh.
Qed.

Lemma insert_by_map {A B : Type} (leb : A -> A -> bool) (leb' : B -> B -> bool)
      (h : A -> B) (x : A) (l : list A) :
  (forall a b, leb' (h a) (h b) = leb a b) ->
  insert_by leb' (h x) (map h l) = map h (insert_by leb x l).
Proof.
  intros Hh. induction l as [| y l IH]; [reflexivity |].
  cbn [map insert_by]. rewrite Hh. destruct (leb x y); [reflexivity |].
  cbn [map]. now rewrite IH.
Qed.

Lemma order_by_map {A B : Type} (leb : A -> A -> bool) (leb' : B -> B -> bool)
      (h : A -> B) (l : list A) :
  (forall a b, leb' (h a) (h b) = leb a b) ->
  order_by leb' (map h l) = map h (order_by leb l).
Proof.
  intros Hh. induction l as [| x l IH]; [reflexivity |].
  cbn [map order_by fold_right]. fold (order_by leb' (map h l)). fold (order_by leb l).
  rewrite IH. now apply insert_by_map.
Qed.

Section OrderByFilter.

Context {A : Type} (leb : A -> A -> bool).
Hypothesis leb_total : forall a b, leb a b = false -> leb b a = true.
Hypothesis leb_trans : forall a b c, leb a b = true -> leb b c = true -> leb a c = true.

Lemma insert_by_sorted (x : A) (l : list A) :
  StronglySorted (precedes leb) l -> StronglySorted (precedes leb) (insert_by leb x l).
Proof.
  induction 1 as [| y l Hl IH Hy]; cbn [insert_by].
  - repeat constructor.
  - destruct (leb x y) eqn:Hxy.
    + constructor; [now constructor |].
      constructor; [exact Hxy |].
      apply Forall_forall. intros z Hz. unfold precedes.
      apply (leb_trans x y z Hxy). now apply (proj1 (Forall_forall _ _) Hy).
    + constructor; [exact IH |].
      apply Forall_forall. intros z Hz.
      apply (Permutation_in _ (insert_by_perm leb x l)) in Hz.
      destruct Hz as [<- | Hz]; [now apply leb_total |].
      now apply (proj1 (Forall_forall _ _) Hy).
Qed.

Lemma order_by_sorted (l : list A) : StronglySorted (precedes leb) (order_by leb l).
Proof.
  induction l as [| x l IH]; cbn; [constructor |].
  fold (order_by leb l). now apply insert_by_sorted.
Qed.

Lemma insert_by_first (x : A) (l : list A) :
  Forall (precedes leb x) l -> insert_by leb x l = x :: l.
Proof.
  destruct l as [| y l]; [reflexivity |]. intros H. cbn [insert_by].
  apply Forall_inv in H. unfold precedes in H. now rewrite H.
Qed.

Lemma filter_insert_by (f : A -> bool) (x : A) (l : list A) :
  StronglySorted (precedes leb) l ->
  filter f (insert_by leb x l)
  = if f x then insert_by leb x (filter f l) else filter f l.
Proof.
  induction 1 as [| y l Hl IH Hy]; cbn [insert_by filter].
  - now destruct (f x).
  - destruct (leb x y) eqn:Hxy.
    + cbn [filter]. destruct (f x) eqn:Hfx; [| reflexivity].
      symmetry. apply insert_by_first.
      apply Forall_forall. intros z Hz.
      assert (Hz' : In z (y :: l)).
      { destruct (f y); [destruct Hz as [<- | Hz]; [now left | right] | right];
          now apply filter_In in Hz. }
      destruct Hz' as [<- | Hz']; [exact Hxy |].
      apply (leb_trans x y z Hxy). now apply (proj1 (Forall_forall _ _) Hy).
    + cbn [filter]. rewrite IH.
      destruct (f y), (f x); cbn [insert_by]; try rewrite Hxy; reflexivity.
Qed.

Lemma filter_order_by (f : A -> bool) (l : list A) :
  filter f (order_by leb l) = order_by leb (filter f l).
Proof.
  induction l as [| x l IH]; [reflexivity |].
  cbn [order_by fold_right filter]. fold (order_by leb l).
  rewrite filter_insert_by by apply order_by_sorted.
  rewrite IH. now destruct (f x).
Qed.

End OrderByFilter.

(** ** [code_changes]: the two variants agree *)

Section CodeChangesVariants.

Variable date_trunc : string -> Z -> Z.
Variable db : store.
Variable period : string.
Variables b e : Z.
Variables g p : Z.

Hypothesis p_in_g : in_repo_group db g p = true.

Lemma group_row_leb_total (x y : Z * string * Z * Z) :
  group_row_leb x y = false -> group_row_leb y x = true.
Proof.
  destruct x as [[[i n] d] c], y as [[[i' n'] d'] c']. unfold group_row_leb.
  rewrite orb_false_iff, andb_false_iff, orb_true_iff, andb_true_iff.
  rewrite Z.ltb_ge, !Z.ltb_lt, !Z.eqb_eq, Z.eqb_neq, Z.leb_gt, Z.leb_le. lia.
Qed.

Lemma group_row_leb_trans (x y z : Z * string * Z * Z) :
  group_row_leb x y = true -> group_row_leb y z = true -> group_row_leb x z = true.
Proof.
  destruct x as [[[i n] d] c], y as [[[i' n'] d'] c'], z as [[[i'' n''] d''] c''].
  unfold group_row_leb.
  rewrite !orb_true_iff, !andb_true_iff, !Z.ltb_lt, !Z.eqb_eq, !Z.leb_le. lia.
Qed.

(** The rows of [p] among the rows of its group are the rows the
    single-project variant reads. *)
Lemma group_rows_of_p :
  filter (of_repo p) (code_changes_group_rows db b e g) = code_changes_single_rows db b e p.
Proof.
  unfold code_changes_group_rows, code_changes_single_rows.
  rewrite filter_and. apply filter_ext. intros [c r]. unfold of_repo. cbn [fst].
  destruct (cmt_repo_id c =? p) eqn:E.
  - apply Z.eqb_eq in E. rewrite E, p_in_g. cbn. now rewrite andb_true_r.
  - cbn. now rewrite andb_false_r.
Qed.

Lemma single_rows_of_p (x : commits_row * repo_row) :
  In x (code_changes_single_rows db b e p) -> cmt_repo_id (fst x) = p.
Proof.
  unfold code_changes_single_rows. rewrite filter_In. intros [_ H].
  destruct x as [c r]. apply andb_prop in H. destruct H as [H _].
  now apply Z.eqb_eq in H.
Qed.

Lemma group_key_embed (x : commits_row * repo_row) :
  cmt_repo_id (fst x) = p ->
  code_changes_group_key date_trunc period x
  = group_key_of p (code_changes_single_key date_trunc period x).
Proof.
  intros H. unfold code_changes_group_key, code_changes_single_key, group_key_of.
  cbn [fst snd]. now rewrite H.
Qed.

Lemma group_key_eqb_embed (k k' : Z * string) :
  group_key_eqb (group_key_of p k) ((group_key_of p) k') = single_key_eqb k k'.
Proof.
  destruct k as [d n], k' as [d' n']. unfold group_key_of, group_key_eqb, single_key_eqb.
  cbn [fst snd]. now rewrite Z.eqb_refl.
Qed.

Lemma group_key_eqb_of_p (k : Z * string) (x : commits_row * repo_row) :
  group_key_eqb (group_key_of p k) (code_changes_group_key date_trunc period x)
  = of_repo p x && single_key_eqb k (code_changes_single_key date_trunc period x).
Proof.
  destruct k as [d n].
  unfold group_key_of, group_key_eqb, code_changes_group_key, single_key_eqb,
    code_changes_single_key, of_repo.
  cbn [fst snd]. rewrite (Z.eqb_sym p). now rewrite andb_assoc.
Qed.

Lemma code_changes_group_of_p :
  map (fun '(_, n, d, c) => (n, d, c))
      (filter (fun '(i, _, _, _) => i =? p)
              (code_changes_group date_trunc db period b e g))
  = code_changes_single date_trunc db period b e p.
Proof.
  unfold code_changes_group, code_changes_single.
  set (rowsG := code_changes_group_rows db b e g).
  set (rowsS := code_changes_single_rows db b e p).
  set (keyG := code_changes_group_key date_trunc period).
  set (keyS := code_changes_single_key date_trunc period).
  (* the filter goes through ORDER BY and GROUP BY *)
  rewrite (filter_order_by group_row_leb group_row_leb_total group_row_leb_trans).
  rewrite filter_map_swap.
  rewrite (filter_ext _ (fun k : Z * Z * string => fst (fst k) =? p))
    by (intros [[i d] n]; reflexivity).
  rewrite (filter_distinct group_key_eqb).
  2:{ intros [[i d] n] [[i' d'] n'] H. unfold group_key_eqb in H.
      apply andb_prop in H. destruct H as [H _]. apply andb_prop in H.
      destruct H as [H _]. apply Z.eqb_eq in H. cbn [fst]. now rewrite H. }
  rewrite filter_map_swap.
  rewrite (filter_ext _ (of_repo p)) by (intros [c r]; reflexivity).
  replace (filter (of_repo p) rowsG) with rowsS by (symmetry; apply group_rows_of_p).
  (* the keys of the rows of [p] are the single-project keys *)
  rewrite (map_ext_in keyG (fun x => group_key_of p (keyS x)))
    by (intros x Hx; apply group_key_embed; now apply single_rows_of_p).
  rewrite <- (map_map keyS (group_key_of p)).
  rewrite (distinct_map single_key_eqb group_key_eqb (group_key_of p)) by apply group_key_eqb_embed.
  rewrite map_map.
  rewrite (map_ext _ (fun k => group_row_of p
             (let '(d, n) := k in
              (n, d, sql_count (fun x => cmt_commit_hash (fst x))
                       (filter (fun x => single_key_eqb k (keyS x)) rowsS))))).
  2:{ intros [d n]. unfold group_row_of, group_key_of. cbn [fst snd]. do 2 f_equal.
      replace rowsS with (filter (of_repo p) rowsG) by apply group_rows_of_p.
      rewrite filter_and.
      apply filter_ext. intros x. apply (group_key_eqb_of_p (d, n)). }
  rewrite <- (map_map _ (group_row_of p)).
  rewrite (order_by_map single_row_leb group_row_leb (group_row_of p)).
  2:{ intros [[n d] c] [[n' d'] c']. unfold group_row_of, group_row_leb, single_row_leb.
      now rewrite Z.ltb_irrefl, Z.eqb_refl. }
  rewrite map_map. rewrite (map_ext _ (fun x => x)) by (intros [[n d] c]; reflexivity).
  apply map_id.
Qed.

End CodeChangesVariants.

(** ** The two variants of the other metrics *)

Lemma column_index_missing (name : string) (cols : list string) :
  ~ In name cols -> column_index name cols = None.
Proof.
  induction cols as [| c cols IH]; intros H; [reflexivity |].
  cbn [column_index]. destruct (String.eqb_spec name c) as [-> | _].
  - exfalso. apply H. now left.
  - rewrite IH; [reflexivity |]. intros Hin. apply H. now right.
Qed.

(** A table without a [repo_id] column has no row of a project. *)
Lemma restrict_to_missing_column (name : string) (z : Z) (f : frame) :
  ~ In name (columns f) -> rows (restrict_to name (Int z) f) = [].
Proof.
  intros H. unfold restrict_to. cbn [rows]. apply filter_none. intros row _.
  unfold cell_at. now rewrite (column_index_missing name (columns f) H).
Qed.

Lemma rows_of_project_missing_column (p : Z) (single group : frame) :
  ~ In "repo_id"%string (columns group) ->
  rows_of_project p single group -> rows single = [].
Proof.
  intros H Hrows. unfold rows_of_project in Hrows. rewrite Hrows.
  unfold project. cbn [rows]. now rewrite (restrict_to_missing_column _ p group H).
Qed.

Lemma no_repo_id_metrics_spec (m : metric) :
  ~ In "repo_id"%string (group_columns m) <-> In m no_repo_id_metrics.
Proof.
  rewrite <- has_column_In.
  destruct m; (split; [intros H; first [cbn; tauto | exfalso; apply H; reflexivity]
                      | intros H; first [discriminate
                                        | exfalso; cbn in H; intuition discriminate]]).
Qed.


(** A project with one row in [repo], of group [g], is a project of [g]. *)
Lemma listed_in_group (db : store) (g p : Z) :
  map r_repo_group_id (filter (fun r => r_repo_id r =? p) (db_repo db)) = [g] ->
  exists rp,
    filter (fun r => p =? r_repo_id r) (db_repo db) = [rp] /\
    r_repo_group_id rp = g /\
    in_repo_group db g p = true.
Proof.
  intros Hgroup.
  assert (E : filter (fun r => r_repo_id r =? p) (db_repo db)
              = filter (fun r => p =? r_repo_id r) (db_repo db))
    by (apply filter_ext; intros r; apply Z.eqb_sym).
  rewrite E in Hgroup. clear E.
  destruct (filter (fun r => p =? r_repo_id r) (db_repo db)) as [| rp [| r' l]] eqn:Hf;
    try discriminate Hgroup.
  exists rp. cbn [map] in Hgroup. injection Hgroup as Hg.
  split; [reflexivity |]. split; [exact Hg |].
  assert (Hr : In rp (filter (fun r => p =? r_repo_id r) (db_repo db)))
    by (rewrite Hf; now left).
  apply filter_In in Hr. destruct Hr as [Hr Hid]. apply Z.eqb_eq in Hid.
  unfold in_repo_group. apply existsb_exists. exists rp. split; [exact Hr |].
  now rewrite <- Hid, Hg, !Z.eqb_refl.
Qed.

Lemma truthy_nonzero (p : Z) : p <> 0 -> truthy (Some p) = true.
Proof.
  intros Hp. cbn. now apply negb_true_iff, Z.eqb_neq.
Qed.

(** [code_changes]: the rows of the single-project call are those of the
    group-scoped call for [p]. *)
Lemma code_changes_rows_of_project
      (date_trunc : string -> Z -> Z) (db : store) (now g p : Z) (period : string)
      (begin_date end_date : option Z) :
  p <> 0 -> in_repo_group db g p = true ->
  rows_of_project p
    (code_changes date_trunc db now g (Some p) period begin_date end_date)
    (code_changes date_trunc db now g None period begin_date end_date).
Proof.
  intros Hp Hin. unfold rows_of_project, code_changes.
  rewrite (truthy_nonzero p Hp). cbn [negb truthy param rows columns project restrict_to].
  rewrite filter_map_swap, !map_map.
  rewrite (filter_ext _ (fun '(i, _, _, _) => i =? p))
    by (intros [[[i n] d] c]; reflexivity).
  rewrite <- (code_changes_group_of_p date_trunc db period
                (begin_of begin_date) (end_of now end_date) g p Hin).
  rewrite map_map.
  apply map_ext. intros [[[i n] d] c]. reflexivity.
Qed.

(** The snapshots of [p] among those of its group, in the order of the
    group-scoped [ORDER BY], are the rows of the single-project series. *)
Lemma series_group_of_p (m : snapshot_metric) (db : store) (g p : Z) :
  in_repo_group db g p = true ->
  map (fun '(_, n, d, c) => (n, d, c))
      (filter (fun '(i, _, _, _) => i =? p) (series_group m db g))
  = series_single m db p.
Proof.
  intros Hin. unfold series_group, series_single.
  rewrite (filter_order_by group_row_leb group_row_leb_total group_row_leb_trans).
  rewrite filter_map_swap.
  rewrite (filter_ext _ (fun x : repo_info_row * repo_row => ri_repo_id (fst x) =? p))
    by (intros [i r]; reflexivity).
  rewrite filter_and.
  rewrite (filter_ext _ (fun '(i, _) => ri_repo_id i =? p)).
  2:{ intros [i r]. cbn [fst]. destruct (ri_repo_id i =? p) eqn:E.
      - apply Z.eqb_eq in E. now rewrite E, Hin.
      - apply andb_false_r. }
  set (rowsS := filter _ (repo_info_join_repo db)).
  rewrite (map_ext_in _
             (fun x => group_row_of p
                         (let '(i, r) := x in
                          (r_repo_name r, data_collection_date i, count_of m i)))).
  2:{ intros [i r] Hx. unfold rowsS in Hx. apply filter_In in Hx.
      destruct Hx as [_ Hx]. apply Z.eqb_eq in Hx. unfold group_row_of. now rewrite Hx. }
  rewrite <- (map_map _ (group_row_of p)).
  rewrite (order_by_map single_row_leb group_row_leb (group_row_of p)).
  2:{ intros [[n d] c] [[n' d'] c']. unfold group_row_of, group_row_leb, single_row_leb.
      now rewrite Z.ltb_irrefl, Z.eqb_refl. }
  rewrite map_map. rewrite (map_ext _ (fun x => x)) by (intros [[n d] c]; reflexivity).
  rewrite map_id. apply f_equal. apply map_ext. now intros [i r].
Qed.

Lemma series_rows_of_project (m : snapshot_metric) (db : store) (g p : Z) :
  p <> 0 -> in_repo_group db g p = true ->
  rows_of_project p (series m db g (Some p)) (series m db g None).
Proof.
  intros Hp Hin. unfold rows_of_project, series.
  rewrite (truthy_nonzero p Hp). cbn [negb truthy param rows columns project restrict_to].
  rewrite filter_map_swap, !map_map.
  rewrite (filter_ext _ (fun '(i, _, _, _) => i =? p))
    by (intros [[[i n] d] c]; reflexivity).
  rewrite <- (series_group_of_p m db g p Hin).
  rewrite map_map.
  apply map_ext. intros [[[i n] d] c]. now destruct m.
Qed.

Lemma count_series_eq (m : snapshot_metric) : count_series m = series m.
Proof. now destruct m. Qed.

(** A project without a snapshot has no row in either variant of a current
    count. *)
Lemma latest_count_no_snapshot (m : snapshot_metric) (db : store) (g p : Z) :
  snapshots_of db p = [] ->
  filter (fun '(i, _, _) => i =? p) (latest_count_group m db g) = [] /\
  latest_count_single m db p = [].
Proof.
  intros Hnone.
  assert (Hno : forall a, In a (db_repo_info db) -> (ri_repo_id a =? p) = false).
  { intros a Ha. destruct (ri_repo_id a =? p) eqn:E; [| reflexivity].
    assert (H : In a (snapshots_of db p))
      by (unfold snapshots_of; apply filter_In; now split).
    rewrite Hnone in H. contradiction. }
  split.
  - apply filter_none. intros [[i n] c] Hx. unfold latest_count_group in Hx.
    apply in_flat_map in Hx. destruct Hx as (a & Ha & Hx).
    apply filter_In in Ha. destruct Ha as [Ha _].
    apply in_map_iff in Hx. destruct Hx as (r & E & _). injection E as <- _ _.
    now apply Hno.
  - unfold latest_count_single.
    rewrite (filter_none _ (flat_map _ (db_repo_info db))); [reflexivity |].
    intros [i r] Hx. apply in_flat_map in Hx. destruct Hx as (a & Ha & Hx).
    apply in_map_iff in Hx. destruct Hx as (r' & E & _). injection E as <- _.
    now apply Hno.
Qed.

(** With [repo_info_id] a key of [repo_info] and the ids of the snapshots of
    [p] growing with their dates, the two variants of a current count keep
    the same snapshot of [p]. *)
Lemma latest_count_rows_of_project (m : snapshot_metric) (db : store) (g p : Z) :
  p <> 0 ->
  map r_repo_group_id (filter (fun r => r_repo_id r =? p) (db_repo db)) = [g] ->
  NoDup (map repo_info_id (db_repo_info db)) ->
  ids_follow_dates db p ->
  rows_of_project p (latest_count m db g (Some p)) (latest_count m db g None).
Proof.
  intros Hp Hgroup Hinfo Hmono.
  destruct (listed_in_group db g p Hgroup) as (rp & Hrp & Hg & _).
  unfold rows_of_project, latest_count.
  rewrite (truthy_nonzero p Hp). cbn [negb truthy param rows columns project restrict_to].
  rewrite filter_map_swap, !map_map.
  rewrite (filter_ext _ (fun '(i, _, _) => i =? p))
    by (intros [[i n] c]; reflexivity).
  destruct (snapshots_of db p) as [| s0 l] eqn:Hs.
  - destruct (latest_count_no_snapshot m db g p Hs) as [HG HS].
    now rewrite HG, HS.
  - assert (Hne : snapshots_of db p <> []) by (rewrite Hs; discriminate).
    destruct (exists_latest (snapshots_of db p) Hne) as (s & Hin & Hmax).
    rewrite (latest_count_group_of_p m db g p rp s Hrp Hg Hinfo Hmono Hin Hmax).
    rewrite (latest_count_single_of_p m db p rp s Hrp Hinfo Hmono Hin Hmax).
    now destruct m.
Qed.

(** The single-project template of a ranking ranks the group that the scalar
    subquery finds for the repo. *)
Lemma ranked_single_of_group (rollup : list dm_repo_row) (db : store) (g p : Z)
      (added : repo_row -> bool) :
  map r_repo_group_id (filter (fun r => r_repo_id r =? p) (db_repo db)) = [g] ->
  ranked_single rollup db p added = ranked_group rollup db g added.
Proof.
  intros H. unfold ranked_single, ranked_group. now rewrite H.
Qed.

(** The ranking metrics other than the one of the counterexample, on the
    same store: the call for repo 7 ranks repo 8 as well. *)
Example ranking_of_the_group :
  annual_lines_of_code_count_ranked_by_repo_in_repo_group store_two_repos 2019 1 1 (Some 7) None
  = Ok (ranked_frame [(8, "grimoire"%string, 15, 4); (7, "augur"%string, 7, 3)]) /\
  annual_commit_count_ranked_by_new_repo_in_repo_group store_two_repos 1 (Some 7) None
  = Ok (new_repo_frame [(8, 15, 4, "grimoire"%string); (7, 7, 3, "augur"%string)]) /\
  annual_lines_of_code_count_ranked_by_new_repo_in_repo_group store_two_repos 1 (Some 7) None
  = Ok (new_repo_frame [(8, 15, 4, "grimoire"%string); (7, 7, 3, "augur"%string)]).
Proof. repeat split. Qed.

(** With timeframe 'month' the two templates read different rollups:
    [dm_repo_monthly] for a single project, [dm_repo_annual] for a group. *)
Example ranking_month_templates_differ :
  annual_commit_count_ranked_by_repo_in_repo_group store_two_repos 2019 1 1 (Some 7)
    (Some "month"%string)
  = Ok (ranked_frame []) /\
  annual_commit_count_ranked_by_repo_in_repo_group store_two_repos 2019 1 1 None
    (Some "month"%string)
  = Ok (ranked_frame [(7, "augur"%string, 7, 3)]).
Proof. split; reflexivity. Qed.

(** Without the condition on the snapshot ids the two variants of
    [fork_count] differ: the group-scoped one keeps the snapshot with the
    greatest id, the single-project one the snapshot with the latest
    date. *)
Example fork_count_ids_against_dates :
  fork_count store_ids_against_dates 1 None
  = {| columns := ["repo_id"; "repo_name"; "forks"]%string;
       rows := [[Int 7; Str "augur"; Int 3]] |} /\
  fork_count store_ids_against_dates 1 (Some 7)
  = {| columns := ["repo_name"; "forks"]%string; rows := [[Str "augur"; Int 4]] |} /\
  ~ rows_of_project 7 (fork_count store_ids_against_dates 1 (Some 7))
                      (fork_count store_ids_against_dates 1 None).
Proof.
  split; [reflexivity |]. split; [reflexivity |]. cbv. discriminate.
Qed.

(** C7, as stated, fails: the single-project variant of
    [annual_commit_count_ranked_by_repo_in_repo_group] ranks every repo of
    the project's group, so its rows are not the group-scoped rows of
    project 7 alone. *)
Lemma single_project_rows_counterexample :
  in_repo_group store_two_repos 1 7 = true /\
  annual_commit_count_ranked_by_repo_in_repo_group store_two_repos 2019 1 1 (Some 7) None
  = Ok (ranked_frame [(8, "grimoire"%string, 15, 4); (7, "augur"%string, 7, 3)]) /\
  annual_commit_count_ranked_by_repo_in_repo_group store_two_repos 2019 1 1 None None
  = Ok (ranked_frame [(8, "grimoire"%string, 15, 4); (7, "augur"%string, 7, 3)]) /\
  rows (ranked_frame [(8, "grimoire"%string, 15, 4); (7, "augur"%string, 7, 3)])
  <> rows (project
             (columns (ranked_frame [(8, "grimoire"%string, 15, 4); (7, "augur"%string, 7, 3)]))
             (restrict_to "repo_id" (Int 7)
                (ranked_frame [(8, "grimoire"%string, 15, 4); (7, "augur"%string, 7, 3)]))).
Proof.
  repeat (split; [reflexivity |]). cbv. discriminate.
Qed.

(** C7, amended. For every store and every project [p] listed once in
    [repo], in group [g]: the rows of the call with [repo_id = p] are the
    rows of the call with [repo_id = None] on [g] restricted to [p], the
    [repo_id] column left out,
    - for [code_changes], with any period and date range;
    - for the time series [forks], [stars] and [watchers];
    - for [fork_count], [stars_count] and [watchers_count], when
      [repo_info_id] is a key of [repo_info] and the ids of the snapshots of
      [p] grow with their collection dates.
    The four rankings are the exception: for
    [annual_commit_count_ranked_by_repo_in_repo_group] and
    [annual_lines_of_code_count_ranked_by_repo_in_repo_group] with timeframe
    'all' (the default) or 'year', and for
    [annual_commit_count_ranked_by_new_repo_in_repo_group] and
    [annual_lines_of_code_count_ranked_by_new_repo_in_repo_group] with any
    calendar year, the call with [repo_id = p] returns the table of the call
    with [repo_id = None] on the group of [p]: the ranking of the whole
    group, not its restriction to [p]. For the five metrics whose
    group-scoped query selects no [repo_id] column ([sub_projects],
    [lines_changed_by_author], [open_issues_count], [closed_issues_count],
    [top_committers]) the restriction of the group-scoped table to [p] has
    no row, whatever the table holds. *)
Theorem single_project_rows_of_group_rows
        (date_trunc : string -> Z -> Z) (db : store) (g p : Z) :
  p <> 0 ->
  map r_repo_group_id (filter (fun r => r_repo_id r =? p) (db_repo db)) = [g] ->
  (forall (now : Z) (period : string) (begin_date end_date : option Z),
      rows_of_project p
        (code_changes date_trunc db now g (Some p) period begin_date end_date)
        (code_changes date_trunc db now g None period begin_date end_date)) /\
  (forall m : snapshot_metric,
      rows_of_project p (count_series m db g (Some p)) (count_series m db g None)) /\
  (forall m : snapshot_metric,
      NoDup (map repo_info_id (db_repo_info db)) ->
      ids_follow_dates db p ->
      rows_of_project p (current_count m db g (Some p)) (current_count m db g None)) /\
  (forall (current_year current_month : Z) (timeframe : option string),
      timeframe = None \/ timeframe = Some "all"%string \/ timeframe = Some "year"%string ->
      annual_commit_count_ranked_by_repo_in_repo_group
        db current_year current_month g (Some p) timeframe
      = annual_commit_count_ranked_by_repo_in_repo_group
          db current_year current_month g None timeframe /\
      annual_lines_of_code_count_ranked_by_repo_in_repo_group
        db current_year current_month g (Some p) timeframe
      = annual_lines_of_code_count_ranked_by_repo_in_repo_group
          db current_year current_month g None timeframe) /\
  (forall calendar_year : option Z,
      annual_commit_count_ranked_by_new_repo_in_repo_group db g (Some p) calendar_year
      = annual_commit_count_ranked_by_new_repo_in_repo_group db g None calendar_year /\
      annual_lines_of_code_count_ranked_by_new_repo_in_repo_group db g (Some p) calendar_year
      = annual_lines_of_code_count_ranked_by_new_repo_in_repo_group db g None calendar_year) /\
  Forall (fun m : metric =>
            forall table : list (list cell),
              rows (restrict_to "repo_id" (Int p)
                      {| columns := group_columns m; rows := table |}) = [])
         no_repo_id_metrics.
Proof.
  intros Hp Hgroup.
  pose proof (truthy_nonzero p Hp) as Htruthy.
  destruct (listed_in_group db g p Hgroup) as (rp & _ & _ & Hin).
  split; [| split; [| split; [| split; [| split]]]].
  - intros now period begin_date end_date.
    now apply code_changes_rows_of_project.
  - intros m. rewrite count_series_eq. now apply series_rows_of_project.
  - intros m Hinfo Hmono. rewrite current_count_eq.
    now apply latest_count_rows_of_project.
  - intros cy cm timeframe Ht.
    unfold annual_commit_count_ranked_by_repo_in_repo_group,
      annual_lines_of_code_count_ranked_by_repo_in_repo_group.
    rewrite Htruthy. cbn [truthy negb param].
    rewrite !(ranked_single_of_group _ db g p _ Hgroup).
    destruct Ht as [-> | [-> | ->]]; split; reflexivity.
  - intros calendar_year.
    unfold annual_commit_count_ranked_by_new_repo_in_repo_group,
      annual_lines_of_code_count_ranked_by_new_repo_in_repo_group.
    rewrite Htruthy. cbn [truthy negb param]. rewrite Hgroup.
    split; reflexivity.
  - apply Forall_forall. intros m Hm table.
    apply restrict_to_missing_column. cbn [columns]. now apply no_repo_id_metrics_spec.
Qed.

Lemma single_project_rows_of_group_rows_witness :
  (forall (now : Z) (period : string) (begin_date end_date : option Z),
      rows_of_project 7
        (code_changes trunc_day store_two_repos_snapshots now 1 (Some 7) period
                      begin_date end_date)
        (code_changes trunc_day store_two_repos_snapshots now 1 None period
                      begin_date end_date)) /\
  (forall m : snapshot_metric,
      rows_of_project 7 (count_series m store_two_repos_snapshots 1 (Some 7))
                        (count_series m store_two_repos_snapshots 1 None)) /\
  (forall m : snapshot_metric,
      rows_of_project 7 (current_count m store_two_repos_snapshots 1 (Some 7))
                        (current_count m store_two_repos_snapshots 1 None)) /\
  (forall (current_year current_month : Z) (timeframe : option string),
      timeframe = None \/ timeframe = Some "all"%string \/ timeframe = Some "year"%string ->
      annual_commit_count_ranked_by_repo_in_repo_group
        store_two_repos_snapshots current_year current_month 1 (Some 7) timeframe
      = annual_commit_count_ranked_by_repo_in_repo_group
          store_two_repos_snapshots current_year current_month 1 None timeframe /\
      annual_lines_of_code_count_ranked_by_repo_in_repo_group
        store_two_repos_snapshots current_year current_month 1 (Some 7) timeframe
      = annual_lines_of_code_count_ranked_by_repo_in_repo_group
          store_two_repos_snapshots current_year current_month 1 None timeframe) /\
  (forall calendar_year : option Z,
      annual_commit_count_ranked_by_new_repo_in_repo_group
        store_two_repos_snapshots 1 (Some 7) calendar_year
      = annual_commit_count_ranked_by_new_repo_in_repo_group
          store_two_repos_snapshots 1 None calendar_year /\
      annual_lines_of_code_count_ranked_by_new_repo_in_repo_group
        store_two_repos_snapshots 1 (Some 7) calendar_year
      = annual_lines_of_code_count_ranked_by_new_repo_in_repo_group
          store_two_repos_snapshots 1 None calendar_year) /\
  Forall (fun m : metric =>
            forall table : list (list cell),
              rows (restrict_to "repo_id" (Int 7)
                      {| columns := group_columns m; rows := table |}) = [])
         no_repo_id_metrics.
Proof.
  pose proof (single_project_rows_of_group_rows trunc_day store_two_repos_snapshots 1 7)
    as H.
  destruct H as (H1 & H2 & H3 & H4 & H5 & H6); [discriminate | reflexivity |].
  split; [exact H1 |]. split; [exact H2 |].
  split; [| split; [exact H4 | split; [exact H5 | exact H6]]].
  intros m. apply H3.
  - cbn. repeat (constructor; [cbn; intuition discriminate |]). constructor.
  - intros a b Ha Hb. cbn in Ha, Hb.
    destruct Ha as [<- | [<- | []]], Hb as [<- | [<- | []]]; cbn; lia.
Defined.

(** ** Base64 round trip *)

Example b64encode_examples :
  b64encode "a" = "YQ=="%string /\ b64encode "ab" = "YWI="%string /\
  b64encode "abc" = "YWJj"%string /\
  b64encode "github.com/chaoss/augur" = "Z2l0aHViLmNvbS9jaGFvc3MvYXVndXI="%string.
Proof. repeat split; reflexivity. Qed.

Lemma b64_char_value (i : Z) :
  0 <= i < 64 -> b64_value (b64_char i) = Some i /\ Ascii.eqb (b64_char i) "=" = false.
Proof.
  intros Hi. rewrite <- (Z2Nat.id i) by lia.
  assert (Hn : (Z.to_nat i < 64)%nat) by lia.
  revert Hn. generalize (Z.to_nat i). clear. intros n Hn.
  do 64 (destruct n as [| n]; [split; reflexivity |]). lia.
Qed.

Lemma byte_val_bound (a : ascii) : 0 <= byte_val a < 256.
Proof.
  unfold byte_val. pose proof (N_ascii_bounded a). lia.
Qed.

Lemma byte_of_val (a : ascii) : byte_of (byte_val a) = a.
Proof.
  unfold byte_of, byte_val. rewrite N2Z.id. apply ascii_N_embedding.
Qed.

Lemma byte_of_eq (z : Z) (a : ascii) : z = byte_val a -> byte_of z = a.
Proof.
  intros ->. apply byte_of_val.
Qed.

Lemma b64decode_group (c1 c2 c3 c4 : ascii) (rest : string) (v1 v2 v3 v4 : Z) :
  b64_value c1 = Some v1 -> b64_value c2 = Some v2 ->
  b64_value c3 = Some v3 -> b64_value c4 = Some v4 ->
  Ascii.eqb c4 "=" = false ->
  b64decode (String c1 (String c2 (String c3 (String c4 rest))))
  = match b64decode rest with
    | Some tail =>
        let n := ((v1 * 64 + v2) * 64 + v3) * 64 + v4 in
        Some (String (byte_of (n / 65536))
                (String (byte_of ((n / 256) mod 256))
                   (String (byte_of (n mod 256)) tail)))
    | None => None
    end.
Proof.
  intros H1 H2 H3 H4 H. cbn [b64decode]. now rewrite H1, H2, H3, H4, H.
Qed.

Lemma string_ind3 (P : string -> Prop) :
  P EmptyString ->
  (forall a, P (String a EmptyString)) ->
  (forall a b, P (String a (String b EmptyString))) ->
  (forall a b c s, P s -> P (String a (String b (String c s)))) ->
  forall s, P s.
Proof.
  intros H0 H1 H2 H3.
  assert (H : forall s, P s /\ (forall a, P (String a s))
                        /\ (forall a b, P (String a (String b s)))).
  { induction s as [| c s (IH0 & IH1 & IH2)]; auto. }
  intros s. apply H.
Qed.

(** Decoding an encoding gives the bytes back. *)
Lemma b64decode_b64encode (s : string) : b64decode (b64encode s) = Some s.
Proof.
  induction s as [| a | a b | a b c s IH] using string_ind3.
  - reflexivity.
  - pose proof (byte_val_bound a) as Ha.
    cbn [b64encode b64_group].
    set (n := byte_val a * 65536).
    destruct (b64_char_value (n / 262144)) as [E1 _];
      [subst n; Z.div_mod_to_equations; lia |].
    destruct (b64_char_value ((n / 4096) mod 64)) as [E2 _];
      [subst n; Z.div_mod_to_equations; lia |].
    cbn [b64decode]. rewrite E1, E2. cbn [Ascii.eqb Bool.eqb].
    repeat f_equal; apply byte_of_eq; subst n; Z.div_mod_to_equations; lia.
  - pose proof (byte_val_bound a) as Ha. pose proof (byte_val_bound b) as Hb.
    cbn [b64encode b64_group].
    set (n := byte_val a * 65536 + byte_val b * 256).
    destruct (b64_char_value (n / 262144)) as [E1 _];
      [subst n; Z.div_mod_to_equations; lia |].
    destruct (b64_char_value ((n / 4096) mod 64)) as [E2 _];
      [subst n; Z.div_mod_to_equations; lia |].
    destruct (b64_char_value ((n / 64) mod 64)) as [E3 N3];
      [subst n; Z.div_mod_to_equations; lia |].
    cbn [b64decode]. rewrite E1, E2, E3, N3. cbn [Ascii.eqb Bool.eqb].
    repeat f_equal; apply byte_of_eq; subst n; Z.div_mod_to_equations; lia.
  - pose proof (byte_val_bound a) as Ha. pose proof (byte_val_bound b) as Hb.
    pose proof (byte_val_bound c) as Hc.
    cbn [b64encode b64_group].
    set (n := byte_val a * 65536 + byte_val b * 256 + byte_val c).
    destruct (b64_char_value (n / 262144)) as [E1 _];
      [subst n; Z.div_mod_to_equations; lia |].
    destruct (b64_char_value ((n / 4096) mod 64)) as [E2 _];
      [subst n; Z.div_mod_to_equations; lia |].
    destruct (b64_char_value ((n / 64) mod 64)) as [E3 _];
      [subst n; Z.div_mod_to_equations; lia |].
    destruct (b64_char_value (n mod 64)) as [E4 N4];
      [subst n; Z.div_mod_to_equations; lia |].
    rewrite (b64decode_group _ _ _ _ _ _ _ _ _ E1 E2 E3 E4 N4), IH.
    cbv zeta. repeat f_equal; apply byte_of_eq; subst n; Z.div_mod_to_equations; lia.
Qed.

(** ** [split] and the url column *)

Example split_examples :
  split "//" "https://github.com/chaoss/augur" = ["https:"; "github.com/chaoss/augur"]%string /\
  split "//" "a///b//" = ["a"; "/b"; ""]%string /\
  split "//" "abc" = ["abc"]%string /\
  url_of "abc" = Raise (IndexError "list index out of range").
Proof. repeat split; reflexivity. Qed.

Lemma prefix_length (sep s : string) :
  prefix sep s = true -> (String.length sep <= String.length s)%nat.
Proof.
  revert s. induction sep as [| a sep IH]; intros s H; [cbn; lia |].
  destruct s as [| b s]; [discriminate H |].
  cbn [prefix] in H. destruct (ascii_dec a b); [| discriminate H].
  apply IH in H. cbn [String.length]. lia.
Qed.

Lemma partition_spec (sep s : string) :
  partition sep s
  = match strip_through_first sep s with
    | Some after => Some (up_to_first sep s, after)
    | None => None
    end.
Proof.
  induction s as [| c s IH].
  - cbn [partition strip_through_first up_to_first]. now destruct (prefix sep "").
  - cbn [partition strip_through_first up_to_first].
    destruct (prefix sep (String c s)); [reflexivity |].
    rewrite IH. now destruct (strip_through_first sep s).
Qed.

Lemma up_to_first_none (sep s : string) :
  strip_through_first sep s = None -> up_to_first sep s = s.
Proof.
  induction s as [| c s IH]; cbn [strip_through_first up_to_first].
  - now destruct (prefix sep "").
  - destruct (prefix sep (String c s)); [discriminate |].
    intros H. now rewrite IH.
Qed.

Lemma strip_through_first_length (sep s t : string) :
  strip_through_first sep s = Some t -> (String.length sep <= String.length s)%nat.
Proof.
  induction s as [| c s IH]; cbn [strip_through_first].
  - destruct (prefix sep "") eqn:E; [| discriminate]. intros _. now apply prefix_length.
  - destruct (prefix sep (String c s)) eqn:E.
    + intros _. now apply prefix_length.
    + intros H. apply IH in H. cbn [String.length]. lia.
Qed.

Lemma split_fuel_second (fuel : nat) (sep s : string) :
  (2 <= fuel)%nat ->
  nth_error (split_fuel fuel sep s) 1
  = match strip_through_first sep s with
    | Some t => Some (up_to_first sep t)
    | None => None
    end.
Proof.
  intros Hf. destruct fuel as [| [| fuel]]; [lia | lia |].
  cbn [split_fuel]. rewrite partition_spec.
  destruct (strip_through_first sep s) as [t |]; [| reflexivity].
  cbn [nth_error]. rewrite partition_spec.
  destruct (strip_through_first sep t) as [t' |] eqn:Ht; [reflexivity |].
  cbn [nth_error]. now rewrite up_to_first_none.
Qed.

Lemma split_fuel_none (fuel : nat) (sep s : string) :
  strip_through_first sep s = None -> split_fuel fuel sep s = [s].
Proof.
  intros H. destruct fuel as [| fuel]; [reflexivity |].
  cbn [split_fuel]. now rewrite partition_spec, H.
Qed.

(** The url column: the text after the first '//' of [repo_git], cut at the
    next '//'. *)
Lemma url_of_spec (datum : string) :
  url_of datum
  = match strip_through_first "//" datum with
    | Some t => Ok (up_to_first "//" t)
    | None => Raise (IndexError "list index out of range")
    end.
Proof.
  unfold url_of, split.
  destruct (strip_through_first "//" datum) as [t |] eqn:Hs.
  - pose proof (strip_through_first_length _ _ _ Hs) as Hlen. cbn [String.length] in Hlen.
    now rewrite split_fuel_second, Hs by exact Hlen.
  - now rewrite split_fuel_none.
Qed.

Lemma map_result_ok {A B : Type} (f : A -> result B) (l : list A) (l' : list B) :
  map_result f l = Ok l' ->
  forall y, In y l' -> exists x, In x l /\ f x = Ok y.
Proof.
  revert l'. induction l as [| x l IH]; intros l'; cbn [map_result].
  - intros E. injection E as <-. contradiction.
  - destruct (f x) as [y0 | e] eqn:Hx; cbn [bind]; [| discriminate].
    destruct (map_result f l) as [ys | e] eqn:Hl; cbn [bind]; [| discriminate].
    intros E. injection E as <-. intros y [<- | Hy].
    + exists x. split; [now left | exact Hx].
    + destruct (IH ys eq_refl y Hy) as (x' & Hx' & E'). exists x'. split; [now right | exact E'].
Qed.

Lemma downloadedReposSQL_rows (db : store) (row : downloaded_repo) :
  In row (downloadedReposSQL db) ->
  exists r, In r (db_repo db) /\ dr_repo_id row = r_repo_id r /\ dr_url row = r_repo_git r.
Proof.
  unfold downloadedReposSQL. intros H.
  apply (Permutation_in _ (order_by_perm _ _)) in H.
  apply in_flat_map in H. destruct H as (r & Hr & H).
  apply in_map_iff in H. destruct H as (rg & <- & _).
  exists r. now repeat split.
Qed.

(** C10, as stated, fails: a stored URL with a second '//' loses everything
    from that second '//' on, so the url column is not the stored value
    with the text through the first '//' removed. *)
Lemma downloaded_repos_url_counterexample :
  downloaded_repos store_double_slash None = Ok [row_double_slash] /\
  strip_through_first "//" "https://host//repo" = Some "host//repo"%string /\
  dr_url row_double_slash <> "host//repo"%string.
Proof.
  split; [reflexivity |]. split; [reflexivity |]. discriminate.
Qed.

(** C10, amended. For every row returned by [downloaded_repos]: the url
    column is the stored [repo_git] value with everything up to and
    including the first '//' removed and then cut before the next '//', if
    there is one (so it is all of the remainder when the remainder holds no
    '//'); the base64_url column is the base64 encoding of that url value,
    and base64-decoding it yields the url value. *)
Theorem downloaded_repos_url_and_base64
        (db : store) (projects : option (list string))
        (table : list downloaded_repo) (row : downloaded_repo) :
  downloaded_repos db projects = Ok table ->
  In row table ->
  exists (r : repo_row) (t : string),
    In r (db_repo db) /\
    dr_repo_id row = r_repo_id r /\
    strip_through_first "//" (r_repo_git r) = Some t /\
    dr_url row = up_to_first "//" t /\
    (strip_through_first "//" t = None -> dr_url row = t) /\
    dr_base64_url row = b64encode (dr_url row) /\
    b64decode (dr_base64_url row) = Some (dr_url row).
Proof.
  unfold downloaded_repos. intros Hrun Hrow.
  destruct (map_result _ (downloadedReposSQL db)) as [results | e] eqn:Hres;
    cbn [bind] in Hrun; [| discriminate Hrun].
  destruct (projects_set projects); [discriminate Hrun |].
  injection Hrun as <-.
  apply in_map_iff in Hrow. destruct Hrow as (row0 & <- & Hrow0).
  destruct (map_result_ok _ _ _ Hres row0 Hrow0) as (x & Hx & Hurl).
  destruct (downloadedReposSQL_rows db x Hx) as (r & Hr & Hid & Hgit).
  rewrite url_of_spec, Hgit in Hurl.
  destruct (strip_through_first "//" (r_repo_git r)) as [t |] eqn:Ht;
    cbn [bind] in Hurl; [| discriminate Hurl].
  injection Hurl as <-.
  exists r, t. cbn [set_base64_url set_url dr_url dr_repo_id dr_base64_url].
  split; [exact Hr |]. split; [exact Hid |]. split; [exact Ht |].
  split; [reflexivity |]. split; [apply up_to_first_none |].
  split; [reflexivity | apply b64decode_b64encode].
Qed.

Lemma downloaded_repos_url_and_base64_witness :
  exists (r : repo_row) (t : string),
    In r (db_repo store_two_repos) /\
    dr_repo_id row_augur = r_repo_id r /\
    strip_through_first "//" (r_repo_git r) = Some t /\
    dr_url row_augur = up_to_first "//" t /\
    (strip_through_first "//" t = None -> dr_url row_augur = t) /\
    dr_base64_url row_augur = b64encode (dr_url row_augur) /\
    b64decode (dr_base64_url row_augur) = Some (dr_url row_augur).
Proof.
  apply (downloaded_repos_url_and_base64 store_two_repos None
           [row_augur;
            {| dr_repo_id := 8; dr_repo_name := "grimoire"; dr_description := "";
               dr_url := "github.com/chaoss/grimoire"; dr_repo_status := "Complete";
               dr_commits_all_time := Some 1; dr_issues_all_time := None;
               dr_rg_name := "g";
               dr_base64_url := "Z2l0aHViLmNvbS9jaGFvc3MvZ3JpbW9pcmU=" |}] row_augur);
    [reflexivity | now left].
Defined.
